(** * Theater ticket system: seat model, reconciliation, fetch and booking

    A shallow embedding of the [TheaterTicketSystem] component
    (React, TypeScript) and the properties of its seat logic.

    - JavaScript numbers that the component handles (seat ids, seat
      numbers, HTTP status codes, clock readings) are integers, modelled
      in [Z]; [Math.floor (i / 10)] is [Z.div], [i % 10] is [Z.rem].
    - Arrays are lists; [arr[i] = v] is stdpp's list insert.  The only
      index the component assigns through comes from [findIndex], which
      is in range whenever it is not [-1] (lemma [findIndex_range]), so
      the out-of-range behaviour of a JavaScript array is never reached.
    - [string | null] is [option string]; a possibly [undefined] property
      is an [option] as well.
    - An element of a list sent by the service is a booking record or
      [null]; reading a property of [null] throws.
    - The form object is open: [handleInputChange] stores a value under
      whatever name the event carries, the four declared properties being
      the ones that the rest of the component reads. *)

From stdpp Require Import base numbers list strings option gmap pretty.

Open Scope Z_scope.

(** ** Data model *)

(** [status: 'available' | 'booked'] *)
Inductive Status := available | booked.

Global Instance Status_eq_dec : EqDecision Status.
Proof. solve_decision. Defined.

Record Seat := mkSeat {
  id : Z;
  row : string;
  number : Z;
  status : Status;
  selectedBy : option string
}.

Global Instance Seat_eq_dec : EqDecision Seat.
Proof. solve_decision. Defined.

(** [FormData].  The interface declares the four properties [name],
    [email], [phone] and [payment]; the object itself is open, and
    [others] holds what has been stored in it under any other name. *)
Record FormData := mkFormData {
  name : string;
  email : string;
  phone : string;
  payment : string;
  others : gmap string string
}.

Global Instance FormData_eq_dec : EqDecision FormData.
Proof. solve_decision. Defined.

(** [BookedUser].  The interface declares [seatId: number], but
    [markBookedSeats] tests [user.seatId !== undefined]: the property may
    be missing from a record sent by the service, hence the [option]. *)
Record BookedUser := mkBookedUser {
  _id : string;
  u_name : string;
  u_email : string;
  u_phone : string;
  u_payment : string;
  seatBooked : bool;
  seatId : option Z;
  createdAt : string
}.

Global Instance BookedUser_eq_dec : EqDecision BookedUser.
Proof. solve_decision. Defined.

(** Object spread with two overwritten properties:
    [{ ...s, status: 'booked', selectedBy: n }]. *)
Definition book (s : Seat) (n : string) : Seat :=
  {| id := id s; row := row s; number := number s;
     status := booked; selectedBy := Some n |}.

(** ** JavaScript array helpers *)

(** [Array.prototype.findIndex]: the index of the first element that
    satisfies [p], [-1] when there is none.  [findIndex_from p l i] scans
    [l], whose head has index [i]. *)
Fixpoint findIndex_from {A} (p : A → bool) (l : list A) (i : Z) : Z :=
  match l with
  | [] => -1
  | x :: l' => if p x then i else findIndex_from p l' (i + 1)
  end.

Definition findIndex {A} (p : A → bool) (l : list A) : Z :=
  findIndex_from p l 0.

(** [String.fromCharCode c] for a code below 256: a one-character string. *)
Definition fromCharCode (c : Z) : string :=
  String (Ascii.ascii_of_N (Z.to_N c)) EmptyString.

(** [s.charCodeAt(0)], [-1] standing for [NaN] on the empty string. *)
Definition charCode (s : string) : Z :=
  match s with
  | String a _ => Z.of_N (Ascii.N_of_ascii a)
  | EmptyString => -1
  end.

(** ** Seat model builder *)

(** The object pushed at iteration [i] of the loop of [generateAllSeats]. *)
Definition newSeat (i : Z) : Seat :=
  {| id := i;
     row := fromCharCode (65 + i `div` 10);
     number := i `rem` 10 + 1;
     status := available;
     selectedBy := None |}.

(** [for (let i = 0; i < 80; i++) allSeats.push(...)]: [pushSeats n i acc]
    runs the [n] remaining iterations from counter [i] on the array [acc]. *)
Fixpoint pushSeats (n : nat) (i : Z) (allSeats : list Seat) : list Seat :=
  match n with
  | O => allSeats
  | S n' => pushSeats n' (i + 1) (allSeats ++ [newSeat i])
  end.

Definition generateAllSeats : list Seat := pushSeats 80 0 [].

(** [const rows = ['A', ..., 'H']]: the row letters the view lays out. *)
Definition rows : list string := ["A"; "B"; "C"; "D"; "E"; "F"; "G"; "H"].

(** ** Reconciliation *)

(** The body of the [forEach] callback of [markBookedSeats], as a function
    from the array [updatedSeats] before the call to the array after.  The
    element read at [seatIndex] exists whenever [seatIndex] is not [-1]. *)
Definition markUser (updatedSeats : list Seat) (user : BookedUser) : list Seat :=
  match seatBooked user, seatId user with
  | true, Some k =>
      let seatIndex := findIndex (λ seat, bool_decide (id seat = k)) updatedSeats in
      if bool_decide (seatIndex ≠ -1) then
        match updatedSeats !! Z.to_nat seatIndex with
        | Some s => <[Z.to_nat seatIndex := book s (u_name user)]> updatedSeats
        | None => updatedSeats
        end
      else updatedSeats
  | _, _ => updatedSeats
  end.

(** [markBookedSeats]: copy the array, run the callback on every user in
    order, return the copy. *)
Definition markBookedSeats (allSeats : list Seat) (users : list BookedUser)
  : list Seat :=
  let updatedSeats := allSeats in
  foldl markUser updatedSeats users.

(** ** Reconciliation on a store of objects

    [markBookedSeats] once more, with the arrays and seat objects of the
    JavaScript heap made explicit, to state what the function writes to.
    An array holds references; [[...allSeats]] allocates a new array over
    the same seat objects, an object spread allocates a new object and
    [updatedSeats[seatIndex] = ...] writes into the new array.  A
    [None] result stands for a dangling reference, which a well-formed
    store does not have. *)
Module Heap.

Abbreviation loc := positive.

Inductive cell :=
  | Obj (s : Seat)
  | Arr (elems : list loc).

Abbreviation store := (gmap loc cell).

Definition alloc (σ : store) (c : cell) : store * loc :=
  let l := fresh (dom σ) in (<[l := c]> σ, l).

Definition readObj (σ : store) (l : loc) : option Seat :=
  match σ !! l with
  | Some (Obj s) => Some s
  | _ => None
  end.

Definition readArr (σ : store) (a : loc) : option (list loc) :=
  match σ !! a with
  | Some (Arr elems) => Some elems
  | _ => None
  end.

(** The seat sequence that the array at [a] denotes. *)
Definition seatsOf (σ : store) (a : loc) : option (list Seat) :=
  elems ← readArr σ a; mapM (readObj σ) elems.

(** The [forEach] callback. *)
Definition markUser (updatedSeats : loc) (σ : store) (user : BookedUser)
  : option store :=
  match seatBooked user, seatId user with
  | true, Some k =>
      seats ← seatsOf σ updatedSeats;
      let seatIndex := findIndex (λ seat, bool_decide (id seat = k)) seats in
      if bool_decide (seatIndex ≠ -1) then
        s ← seats !! Z.to_nat seatIndex;
        let '(σ1, o) := alloc σ (Obj (book s (u_name user))) in
        elems ← readArr σ1 updatedSeats;
        Some (<[updatedSeats := Arr (<[Z.to_nat seatIndex := o]> elems)]> σ1)
      else Some σ
  | _, _ => Some σ
  end.

Fixpoint forEach (f : store → BookedUser → option store)
    (users : list BookedUser) (σ : store) : option store :=
  match users with
  | [] => Some σ
  | user :: rest => σ' ← f σ user; forEach f rest σ'
  end.

Definition markBookedSeats (σ : store) (allSeats : loc)
    (users : list BookedUser) : option (store * loc) :=
  elems ← readArr σ allSeats;
  let '(σ0, updatedSeats) := alloc σ (Arr elems) in
  σ' ← forEach (markUser updatedSeats) users σ0;
  Some (σ', updatedSeats).

End Heap.

(** ** Component state *)

(** The eight [useState] cells of the component. *)
Record State := mkState {
  seats : list Seat;
  selectedSeat : option Seat;
  showModal : bool;
  loading : bool;
  refreshing : bool;
  error : option string;
  bookedUsers : list BookedUser;
  formData : FormData
}.

(** [{ name: '', email: '', phone: '', payment: 'card' }] *)
Definition emptyForm : FormData :=
  {| name := ""; email := ""; phone := ""; payment := "card"; others := ∅ |}.

(** The state of the first render. *)
Definition initialState : State :=
  {| seats := []; selectedSeat := None; showModal := false; loading := true;
     refreshing := false; error := None; bookedUsers := []; formData := emptyForm |}.

(** ** Effects *)

(** A thrown [Error]; the handlers read nothing but its [message]. *)
Record Exn := mkExn { message : string }.

Inductive Result (A : Type) :=
  | Ok (a : A)
  | Raise (e : Exn).
Arguments Ok {A} a.
Arguments Raise {A} e.

Inductive Level := LogLevel | WarnLevel | ErrorLevel.

(** The callback handed to [setTimeout]: [() => fetchData()]. *)
Inductive Callback := CallFetchData (showRefresh : bool).

(** The object [bookingData] that the submission serialises. *)
Record BookingData := mkBookingData {
  b_name : string;
  b_email : string;
  b_phone : string;
  b_payment : string;
  b_seatBooked : bool;
  b_seatId : Z
}.

(** What a handler does to the outside: calls of the state setters (React
    queues them and applies them in order), [alert], [console], HTTP
    requests and timers.  A setter called with a value is [Set...];
    [setBookedUsers(prev => [...prev, u])] is [AppendBookedUser u].  A
    [console] call is recorded with its level and its first argument, the
    label; the values printed after the label are left out. *)
Inductive Event :=
  | SetSeats (v : list Seat)
  | SetSelectedSeat (v : option Seat)
  | SetShowModal (v : bool)
  | SetLoading (v : bool)
  | SetRefreshing (v : bool)
  | SetError (v : option string)
  | SetBookedUsers (v : list BookedUser)
  | AppendBookedUser (u : BookedUser)
  | SetFormData (v : FormData)
  | Alert (msg : string)
  | Console (level : Level) (label : string)
  | HttpGet (url : string)
  | HttpPost (url : string) (body : BookingData)
  | SetTimeout (callback : Callback) (ms : Z).

(** The state after one queued update. *)
Definition applyEvent (st : State) (ev : Event) : State :=
  match ev with
  | SetSeats v =>
      mkState v (selectedSeat st) (showModal st) (loading st) (refreshing st)
              (error st) (bookedUsers st) (formData st)
  | SetSelectedSeat v =>
      mkState (seats st) v (showModal st) (loading st) (refreshing st)
              (error st) (bookedUsers st) (formData st)
  | SetShowModal v =>
      mkState (seats st) (selectedSeat st) v (loading st) (refreshing st)
              (error st) (bookedUsers st) (formData st)
  | SetLoading v =>
      mkState (seats st) (selectedSeat st) (showModal st) v (refreshing st)
              (error st) (bookedUsers st) (formData st)
  | SetRefreshing v =>
      mkState (seats st) (selectedSeat st) (showModal st) (loading st) v
              (error st) (bookedUsers st) (formData st)
  | SetError v =>
      mkState (seats st) (selectedSeat st) (showModal st) (loading st)
              (refreshing st) v (bookedUsers st) (formData st)
  | SetBookedUsers v =>
      mkState (seats st) (selectedSeat st) (showModal st) (loading st)
              (refreshing st) (error st) v (formData st)
  | AppendBookedUser u =>
      mkState (seats st) (selectedSeat st) (showModal st) (loading st)
              (refreshing st) (error st) (bookedUsers st ++ [u]) (formData st)
  | SetFormData v =>
      mkState (seats st) (selectedSeat st) (showModal st) (loading st)
              (refreshing st) (error st) (bookedUsers st) v
  | Alert _ | Console _ _ | HttpGet _ | HttpPost _ _ | SetTimeout _ _ => st
  end.

Definition applyEvents (st : State) (t : list Event) : State :=
  foldl applyEvent st t.

(** A handler run: the events it emitted, in order, and how it ended. *)
Definition M (A : Type) : Type := list Event * Result A.

Global Instance M_ret : MRet M := λ A a, ([], Ok a).

Global Instance M_bind : MBind M := λ A B f m,
  match m with
  | (t, Ok a) => let '(t', r) := f a in (t ++ t', r)
  | (t, Raise e) => (t, Raise e)
  end.

Definition emit (ev : Event) : M unit := ([ev], Ok tt).

Definition throw {A} (e : Exn) : M A := ([], Raise e).

(** [await p] for a promise that settles as [r]. *)
Definition await {A} (r : Result A) : M A := ([], r).

(** [try { body } catch (err) { handler }] *)
Definition try_catch {A} (body : M A) (handler : Exn → M A) : M A :=
  match body with
  | (t, Raise e) => let '(t', r) := handler e in (t ++ t', r)
  | (t, Ok a) => (t, Ok a)
  end.

(** [try { body } finally { fin }]: [fin] runs on every exit of [body];
    the outcome is that of [body] unless [fin] itself throws. *)
Definition try_finally {A} (body : M A) (fin : M unit) : M A :=
  match body, fin with
  | (t, r), (t', Ok _) => (t ++ t', r)
  | (t, _), (t', Raise e) => (t ++ t', Raise e)
  end.

Definition trace {A} (m : M A) : list Event := m.1.
Definition outcome {A} (m : M A) : Result A := m.2.

(** The state once every update queued by the run [m] is applied to [st],
    no other handler running in between. *)
Definition run {A} (m : M A) (st : State) : State := applyEvents st (trace m).

(** ** Replies of the external service *)

#[local] Set Warnings "-register-all".

(** A parsed JSON document.  The component reads the elements of an array
    as booking records ([usersData: BookedUser[]], unchecked): an element
    is an object, read at the type [BookedUser], or the document [null]
    ([None]), on which a property access throws.  The envelope around the
    array is untyped. *)
Inductive json :=
  | JNull
  | JBool (b : bool)
  | JNum (n : Z)
  | JStr (s : string)
  | JArr (elements : list (option BookedUser))
  | JObj (fields : list (string * json)).

(** The property [k] of a parsed object.  [JSON.parse] keeps the last of
    several members with one key. *)
Fixpoint ownProp (k : string) (fields : list (string * json)) : option json :=
  match fields with
  | [] => None
  | (k', v) :: rest =>
      match ownProp k rest with
      | Some w => Some w
      | None => if decide (k' = k) then Some v else None
      end
  end.

(** [v.k] for the keys the component reads ([data], [users]): a property of
    an object, [undefined] on a primitive or an array, a [TypeError] on
    [null]. *)
Definition getProp (v : json) (k : string) : M (option json) :=
  match v with
  | JNull => throw (mkExn ("Cannot read properties of null (reading '" +:+ k +:+ "')"))
  | JObj fields => mret (ownProp k fields)
  | _ => mret None
  end.

(** JavaScript truthiness; [None] is [undefined]. *)
Definition truthy (v : option json) : bool :=
  match v with
  | None | Some JNull => false
  | Some (JBool b) => b
  | Some (JNum n) => bool_decide (n ≠ 0)
  | Some (JStr s) => bool_decide (s ≠ "")
  | Some (JArr _) | Some (JObj _) => true
  end.

(** [Array.isArray] *)
Definition isArray (v : option json) : bool :=
  match v with
  | Some (JArr _) => true
  | _ => false
  end.

(** The value of an expression that [Array.isArray] has accepted. *)
Definition elementsOf (v : option json) : list (option BookedUser) :=
  match v with
  | Some (JArr l) => l
  | _ => []
  end.

(** The body of a successful booking confirmation as the submission reads
    it: [data._id] is all it looks at, a string by the [BookedUser]
    interface.  [ConfirmNull] is the JSON document [null]; any other
    document is [ConfirmData i], [i] being its [_id] property or [None]
    when it has none. *)
Inductive ConfirmBody :=
  | ConfirmNull
  | ConfirmData (ident : option string).

(** A settled [fetch]: [ok], [status], and what [text()] and [json()]
    settle as. *)
Record Response (D : Type) := mkResponse {
  ok : bool;
  http_status : Z;
  text : Result string;
  parsed : Result D
}.
Arguments mkResponse {D} ok http_status text parsed.
Arguments ok {D} r.
Arguments http_status {D} r.
Arguments text {D} r.
Arguments parsed {D} r.

(** ** Data fetch controller *)

(** "Handle different response structures": the [if] chain that picks
    [usersData] out of the parsed reply [data]. *)
Definition usersDataOf (data : json) : M (list (option BookedUser)) :=
  if isArray (Some data) then mret (elementsOf (Some data))
  else
    d ← getProp data "data";
    if truthy d && isArray d then mret (elementsOf d)
    else
      u ← getProp data "users";
      if truthy u && isArray u then mret (elementsOf u)
      else
        emit (Console WarnLevel "Unexpected response format, using empty array");;
        mret [].

(** [usersData.filter(user => user.seatBooked)]: the callback runs on the
    elements in order and throws a [TypeError] on a [null] element. *)
Fixpoint filterBooked (usersData : list (option BookedUser))
  : M (list BookedUser) :=
  match usersData with
  | [] => mret []
  | None :: _ =>
      throw (mkExn "Cannot read properties of null (reading 'seatBooked')")
  | Some user :: rest =>
      kept ← filterBooked rest;
      mret (if seatBooked user then user :: kept else kept)
  end.

(** The [try] block of [fetchData(showRefresh)], given what the request
    to the service settles as. *)
Definition fetchTry (showRefresh : bool) (reply : Result (Response json))
  : M unit :=
  (if showRefresh then emit (SetRefreshing true)
   else emit (SetLoading true));;
  emit (Console LogLevel "Fetching data from backend...");;
  emit (HttpGet "http://localhost:3000/get-bookings");;
  response ← await reply;
  emit (Console LogLevel "Response status:");;
  (if negb (ok response)
   then throw (mkExn ("HTTP error! status: " +:+ pretty (http_status response)))
   else mret tt);;
  data ← await (parsed response);
  emit (Console LogLevel "Bookings data:");;
  usersData ← usersDataOf data;
  bookedUsersData ← filterBooked usersData;
  emit (SetBookedUsers bookedUsersData);;
  emit (Console LogLevel "Booked users:");;
  let allSeats := generateAllSeats in
  let seatsWithBookings := markBookedSeats allSeats bookedUsersData in
  emit (SetSeats seatsWithBookings);;
  emit (Console LogLevel "Total seats after marking:");;
  emit (Console LogLevel "Booked seats count:");;
  emit (SetError None).

(** Its [catch] block. *)
Definition fetchCatch (err : Exn) : M unit :=
  emit (Console ErrorLevel "Error fetching bookings:");;
  emit (SetError (Some "Failed to load seat data. Using demo data instead."));;
  emit (SetSeats generateAllSeats);;
  emit (SetBookedUsers []).

(** Its [finally] block. *)
Definition fetchFinally : M unit :=
  emit (SetLoading false);;
  emit (SetRefreshing false).

Definition fetchData (showRefresh : bool) (reply : Result (Response json))
  : M unit :=
  try_finally (try_catch (fetchTry showRefresh reply) fetchCatch) fetchFinally.

Definition handleRefresh (reply : Result (Response json)) : M unit :=
  fetchData true reply.

(** ** Selection *)

Definition handleSeatClick (seat : Seat) : M unit :=
  if bool_decide (status seat ≠ available) then
    match selectedBy seat with
    | Some who =>
        if bool_decide (who ≠ "") then
          emit (Alert ("This seat (" +:+ row seat +:+ pretty (number seat)
                       +:+ ") is already booked by " +:+ who))
        else mret tt
    | None => mret tt
    end
  else
    emit (Console LogLevel "Seat clicked:");;
    emit (SetSelectedSeat (Some seat));;
    emit (SetShowModal true).

(** [handleCloseModal] reads [loading] from the render it was created in. *)
Definition handleCloseModal (st : State) : M unit :=
  if loading st then mret tt
  else
    emit (SetShowModal false);;
    emit (SetFormData emptyForm);;
    emit (SetSelectedSeat None);;
    emit (SetError None).

(** ** Booking submission controller *)

(** [data._id]: a [TypeError] when the parsed body is [null]. *)
Definition getId (data : ConfirmBody) : M (option string) :=
  match data with
  | ConfirmNull => throw (mkExn "Cannot read properties of null (reading '_id')")
  | ConfirmData i => mret i
  end.

(** [i || fallback] on an optional string: [undefined] and the empty
    string are falsy. *)
Definition orElse (i : option string) (fallback : string) : string :=
  match i with
  | Some s => if bool_decide (s ≠ "") then s else fallback
  | None => fallback
  end.

(** [handleConfirmBooking].  [st] is the state of the render the handler
    was created in: [formData], [selectedSeat] and [seats] are read from
    it.  [reply] is what the request settles as, [dateNow] the value of
    [Date.now()] and [isoNow] that of [new Date().toISOString()].

    The [try] block, entered with the seat [selectedSeat]: *)
Definition confirmTry (st : State) (selectedSeat : Seat)
    (reply : Result (Response ConfirmBody)) (dateNow : Z) (isoNow : string)
  : M unit :=
  let formData := formData st in
  let bookingData :=
    {| b_name := name formData; b_email := email formData;
       b_phone := phone formData; b_payment := payment formData;
       b_seatBooked := true; b_seatId := id selectedSeat |} in
  emit (Console LogLevel "Sending booking data:");;
  emit (HttpPost "http://localhost:3000/confirm-booking" bookingData);;
  response ← await reply;
  (if negb (ok response) then
     errorText ← await (text response);
     throw (mkExn ("Failed to confirm booking: " +:+ errorText))
   else mret tt);;
  data ← await (parsed response);
  emit (Console LogLevel "Booking confirmed:");;
  let updatedSeats :=
    (λ s, if bool_decide (id s = id selectedSeat)
          then book s (name formData) else s) <$> seats st in
  emit (SetSeats updatedSeats);;
  ident ← getId data;
  let newBookedUser :=
    {| _id := orElse ident (pretty dateNow);
       u_name := b_name bookingData; u_email := b_email bookingData;
       u_phone := b_phone bookingData; u_payment := b_payment bookingData;
       seatBooked := b_seatBooked bookingData;
       seatId := Some (b_seatId bookingData);
       createdAt := isoNow |} in
  emit (AppendBookedUser newBookedUser);;
  emit (SetShowModal false);;
  emit (SetFormData emptyForm);;
  emit (SetSelectedSeat None);;
  emit (Alert ("ðŸŽ‰ Ticket booked successfully for " +:+ name formData
               +:+ "! Seat: " +:+ row selectedSeat
               +:+ pretty (number selectedSeat)));;
  emit (SetTimeout (CallFetchData false) 500).

(** The [catch] block. *)
Definition confirmCatch (err : Exn) : M unit :=
  emit (Console ErrorLevel "Error confirming booking:");;
  emit (Alert ("Failed to confirm booking: " +:+ message err)).

(** The [finally] block. *)
Definition confirmFinally : M unit :=
  emit (SetLoading false).

Definition handleConfirmBooking (st : State)
    (reply : Result (Response ConfirmBody)) (dateNow : Z) (isoNow : string)
  : M unit :=
  let formData := formData st in
  if bool_decide (name formData = "") || bool_decide (email formData = "")
     || bool_decide (phone formData = "")
  then emit (Alert "Please fill all fields")
  else
    match selectedSeat st with
    | None => emit (Alert "No seat selected")
    | Some selectedSeat =>
        emit (SetLoading true);;
        try_finally
          (try_catch (confirmTry st selectedSeat reply dateNow isoNow)
                     confirmCatch)
          confirmFinally
    end.

(** ** Vocabulary of the controller properties *)

(** The two busy indicators of the component. *)
Inductive Flag := FlagLoading | FlagRefreshing.

(** The busy indicators that a run raises, in order. *)
Definition raisedFlags (t : list Event) : list Flag :=
  omap (λ ev, match ev with
              | SetLoading true => Some FlagLoading
              | SetRefreshing true => Some FlagRefreshing
              | _ => None
              end) t.

(** The busy indicators that a run clears, in order. *)
Definition clearedFlags (t : list Event) : list Flag :=
  omap (λ ev, match ev with
              | SetLoading false => Some FlagLoading
              | SetRefreshing false => Some FlagRefreshing
              | _ => None
              end) t.

(** Two runs have independent busy indicators: no flag that the first
    raises is raised or cleared by the second. *)
Definition independentFlags (t1 t2 : list Event) : Prop :=
  ∀ f, f ∈ raisedFlags t1 → (f ∉ raisedFlags t2) ∧ (f ∉ clearedFlags t2).

(** The HTTP requests and the timers of a run. *)
Definition requests (t : list Event) : list Event :=
  List.filter (λ ev, match ev with HttpGet _ | HttpPost _ _ => true | _ => false end) t.

Definition timers (t : list Event) : list Event :=
  List.filter (λ ev, match ev with SetTimeout _ _ => true | _ => false end) t.

Definition alerts (t : list Event) : list string :=
  omap (λ ev, match ev with Alert msg => Some msg | _ => None end) t.

Definition warnings (t : list Event) : list string :=
  omap (λ ev, match ev with Console WarnLevel msg => Some msg | _ => None end) t.

(** A transport failure (the request is rejected, or answered with a
    status outside 2xx) or a parsing failure (the body is not JSON). *)
Definition fetchFailed (reply : Result (Response json)) : Prop :=
  match reply with
  | Raise _ => True
  | Ok response => ok response = false ∨ ∃ e, parsed response = Raise e
  end.

(** The three accepted shapes, in the words of the specification: a bare
    list, an object with the list under [data], an object with the list
    under [users]; [None] for any other document. *)
Definition acceptedShape (data : json) : option (list (option BookedUser)) :=
  match data with
  | JArr l => Some l
  | JObj fields =>
      match ownProp "data" fields with
      | Some (JArr l) => Some l
      | _ => match ownProp "users" fields with
             | Some (JArr l) => Some l
             | _ => None
             end
      end
  | _ => None
  end.

(** The records of a list of elements, when none of them is [null]. *)
Fixpoint recordsOf (l : list (option BookedUser)) : option (list BookedUser) :=
  match l with
  | [] => Some []
  | None :: _ => None
  | Some user :: rest =>
      match recordsOf rest with
      | Some records => Some (user :: records)
      | None => None
      end
  end.

(** The state after a fetch cycle whose [try] block completes: the seats
    reconciled with the confirmed records of [l], no error. *)
Definition fetched (st : State) (l : list BookedUser) : State :=
  {| seats := markBookedSeats generateAllSeats (List.filter (λ user, seatBooked user) l);
     selectedSeat := selectedSeat st; showModal := showModal st;
     loading := false; refreshing := false; error := None;
     bookedUsers := List.filter (λ user, seatBooked user) l;
     formData := formData st |}.

(** The state after a fetch cycle whose [try] block throws. *)
Definition fellBack (st : State) : State :=
  {| seats := generateAllSeats;
     selectedSeat := selectedSeat st; showModal := showModal st;
     loading := false; refreshing := false;
     error := Some "Failed to load seat data. Using demo data instead.";
     bookedUsers := []; formData := formData st |}.

(** The events of a run up to its first HTTP request: what a handler has
    done when it first waits for the service. *)
Fixpoint untilRequest (t : list Event) : list Event :=
  match t with
  | [] => []
  | ev :: rest =>
      match ev with
      | HttpGet _ | HttpPost _ _ => [ev]
      | _ => ev :: untilRequest rest
      end
  end.

(** The events after the first HTTP request: what the handler does once
    the service has answered. *)
Fixpoint afterRequest (t : list Event) : list Event :=
  match t with
  | [] => []
  | ev :: rest =>
      match ev with
      | HttpGet _ | HttpPost _ _ => rest
      | _ => afterRequest rest
      end
  end.

(** The record that a successful submission appends. *)
Definition newBookedUser (f : FormData) (seat : Seat) (ident : option string)
    (dateNow : Z) (isoNow : string) : BookedUser :=
  {| _id := orElse ident (pretty dateNow);
     u_name := name f; u_email := email f; u_phone := phone f;
     u_payment := payment f; seatBooked := true; seatId := Some (id seat);
     createdAt := isoNow |}.

(** The request body of a submission. *)
Definition bookingDataOf (f : FormData) (seat : Seat) : BookingData :=
  {| b_name := name f; b_email := email f; b_phone := phone f;
     b_payment := payment f; b_seatBooked := true; b_seatId := id seat |}.

(** The optimistic update of a submission for [seat] under the name [n]. *)
Definition bookLocally (seat : Seat) (n : string) (l : list Seat) : list Seat :=
  (λ s, if bool_decide (id s = id seat) then book s n else s) <$> l.

(** The message of the error that reaches [catch] when the service
    answers outside 2xx. *)
Definition rejection (response : Response ConfirmBody) : string :=
  match text response with
  | Ok errorText => "Failed to confirm booking: " +:+ errorText
  | Raise e => message e
  end.

(** A reply with status 200 whose body parses to [data]. *)
Definition replyWith {D} (data : D) : Result (Response D) :=
  Ok {| ok := true; http_status := 200; text := Ok ""; parsed := Ok data |}.

(** The form is filled in: [name], [email] and [phone] are not empty. *)
Definition filled (f : FormData) : Prop :=
  name f ≠ "" ∧ email f ≠ "" ∧ phone f ≠ "".

(** ** Scenarios *)

(** Seat 5 is selected on the generated seats, the modal is open and the
    form reads Alice, a@x.com, 555, card. *)
Definition aliceForm : FormData :=
  {| name := "Alice"; email := "a@x.com"; phone := "555"; payment := "card";
     others := ∅ |}.

Definition aliceState : State :=
  {| seats := generateAllSeats; selectedSeat := Some (newSeat 5);
     showModal := true; loading := false; refreshing := false; error := None;
     bookedUsers := []; formData := aliceForm |}.

(** A booking record of [who] for the seat [k]. *)
Definition record (who : string) (confirmed : bool) (k : option Z) : BookedUser :=
  {| _id := "id-" +:+ who; u_name := who; u_email := who +:+ "@x.com";
     u_phone := "555"; u_payment := "card"; seatBooked := confirmed;
     seatId := k; createdAt := "2025-01-01T00:00:00.000Z" |}.

(** Two seats and four records: two confirmed ones for seat 5, one that
    is not confirmed, one for a seat that does not exist. *)
Definition twoSeats : list Seat := [newSeat 4; newSeat 5].

Definition fourRecords : list BookedUser :=
  [record "Alice" true (Some 5); record "Bob" true (Some 5);
   record "Carol" false (Some 4); record "Dave" true (Some 99)].

(** A store with the two seats and an array over them. *)
Definition twoSeatStore : Heap.store :=
  {[ 1%positive := Heap.Obj (newSeat 4); 2%positive := Heap.Obj (newSeat 5);
     3%positive := Heap.Arr [1%positive; 2%positive] ]}.

(** A reply with status [code] outside 2xx and the body text [msg]. *)
Definition rejected (code : Z) (msg : string) : Result (Response ConfirmBody) :=
  Ok {| ok := false; http_status := code; text := Ok msg;
        parsed := Raise (mkExn "Unexpected token") |}.

(** ** Vocabulary of the reconciliation properties *)

(** [user] is a confirmed record for the seat id [k]. *)
Definition confirmedFor (k : Z) (user : BookedUser) : bool :=
  seatBooked user && bool_decide (seatId user = Some k).

(** Position [n] of [allSeats] holds [s], and [s] is the first seat of the
    sequence whose id is [k]: the seat that a record with [seatId = k]
    matches.  In a sequence with unique ids it is the only seat with that
    id. *)
Definition firstWithId (allSeats : list Seat) (n : nat) (s : Seat) (k : Z) : Prop :=
  allSeats !! n = Some s ∧ id s = k ∧
  ∀ m s', allSeats !! m = Some s' → (m < n)%nat → id s' ≠ k.

(** The record whose name position [n] ends up with: the last confirmed
    record of [users] for the id of the seat at [n], provided that seat is
    the first with its id. *)
Definition hits (allSeats : list Seat) (n : nat) (user : BookedUser) : bool :=
  match seatBooked user, seatId user with
  | true, Some k =>
      bool_decide (findIndex (λ seat, bool_decide (id seat = k)) allSeats = Z.of_nat n)
  | _, _ => false
  end.

Definition winner (allSeats : list Seat) (n : nat) (users : list BookedUser)
  : option BookedUser :=
  last (List.filter (hits allSeats n) users).

Definition overlay (w : option BookedUser) (s : Seat) : Seat :=
  match w with
  | Some user => book s (u_name user)
  | None => s
  end.

(** ** Form edits *)

(** The updater that [handleInputChange] hands to [setFormData]:
    [prev => ({ ...prev, [name]: value })], a copy of [prev] with the
    property [fieldName] set to [value], whatever the name is. *)
Definition setField (fieldName value : string) (prev : FormData) : FormData :=
  if bool_decide (fieldName = "name") then
    {| name := value; email := email prev; phone := phone prev;
       payment := payment prev; others := others prev |}
  else if bool_decide (fieldName = "email") then
    {| name := name prev; email := value; phone := phone prev;
       payment := payment prev; others := others prev |}
  else if bool_decide (fieldName = "phone") then
    {| name := name prev; email := email prev; phone := value;
       payment := payment prev; others := others prev |}
  else if bool_decide (fieldName = "payment") then
    {| name := name prev; email := email prev; phone := phone prev;
       payment := value; others := others prev |}
  else
    {| name := name prev; email := email prev; phone := phone prev;
       payment := payment prev; others := <[fieldName := value]> (others prev) |}.

(** [f[fieldName]]: the property of the form object under a name. *)
Definition getField (fieldName : string) (f : FormData) : option string :=
  if bool_decide (fieldName = "name") then Some (name f)
  else if bool_decide (fieldName = "email") then Some (email f)
  else if bool_decide (fieldName = "phone") then Some (phone f)
  else if bool_decide (fieldName = "payment") then Some (payment f)
  else others f !! fieldName.

(** [handleInputChange] on the event of the input [fieldName] carrying
    [value]: the queued updater applied to the current state. *)
Definition handleInputChange (fieldName value : string) (st : State) : State :=
  {| seats := seats st; selectedSeat := selectedSeat st;
     showModal := showModal st; loading := loading st;
     refreshing := refreshing st; error := error st;
     bookedUsers := bookedUsers st;
     formData := setField fieldName value (formData st) |}.

(** ** What the view derives from the state *)

(** [seats.filter(seat => seat.status === 'booked')] and its counterpart. *)
Definition bookedSeats (l : list Seat) : list Seat :=
  List.filter (λ seat, bool_decide (status seat = booked)) l.

Definition availableSeats (l : list Seat) : list Seat :=
  List.filter (λ seat, bool_decide (status seat = available)) l.

(** [seats.filter(seat => seat.row === row)] *)
Definition rowSeats (r : string) (l : list Seat) : list Seat :=
  List.filter (λ seat, bool_decide (row seat = r)) l.

(** The seat grid: for each letter of [rows], in order, the seats of that
    row; a letter with no seat renders nothing. *)
Definition seatGrid (l : list Seat) : list (string * list Seat) :=
  omap (λ r, let group := rowSeats r l in
             if bool_decide (length group = 0%nat) then None
             else Some (r, group)) rows.

(** [{error && (<div ...>{error}</div>)}]: the text of the banner that the
    view shows, none when [error] is [null] or empty. *)
Definition banner (st : State) : option string :=
  match error st with
  | Some msg => if bool_decide (msg ≠ "") then Some msg else None
  | None => None
  end.

(** [disabled] of a seat button, of the refresh button and of the buttons
    of the modal; the condition under which the modal is rendered. *)
Definition seatDisabled (st : State) (seat : Seat) : bool :=
  bool_decide (status seat = booked) || loading st.

Definition refreshDisabled (st : State) : bool := refreshing st || loading st.

Definition modalDisabled (st : State) : bool := loading st.

Definition modalShown (st : State) : bool :=
  showModal st && bool_decide (is_Some (selectedSeat st)).

(** The address part of a seat sequence: what the seat model builder
    fixes and no handler changes. *)
Definition layout (l : list Seat) : list (Z * string * Z) :=
  (λ s, (id s, row s, number s)) <$> l.

(** [st] with the [loading] indicator cleared. *)
Definition idle (st : State) : State :=
  {| seats := seats st; selectedSeat := selectedSeat st;
     showModal := showModal st; loading := false;
     refreshing := refreshing st; error := error st;
     bookedUsers := bookedUsers st; formData := formData st |}.

(** A confirmation that fails: the request is rejected, the status is
    outside 2xx, or the body of a 2xx reply is not JSON.  [failureOf] is
    the message of the error that reaches the [catch] block. *)
Definition confirmFailed (reply : Result (Response ConfirmBody)) : Prop :=
  match reply with
  | Raise _ => True
  | Ok response => ok response = false ∨ ∃ e, parsed response = Raise e
  end.

Definition failureOf (reply : Result (Response ConfirmBody)) : string :=
  match reply with
  | Raise e => message e
  | Ok response =>
      if ok response then
        match parsed response with
        | Raise e => message e
        | Ok _ => ""
        end
      else rejection response
  end.

(** ** The handlers as transitions

    One handler running to completion on the state of the latest render,
    with no other handler in between.  A seat is clicked through its
    button, which the view renders for a seat of the state and disables
    while [seatDisabled]; the form is edited, submitted or closed through
    the modal, which exists while [modalShown] and whose buttons are
    disabled while [modalDisabled].  [service] tells which replies the
    booking service may give to a confirmation. *)
Inductive step (service : Result (Response ConfirmBody) → Prop)
  : State → State → Prop :=
  | step_fetch showRefresh reply st :
      step service st (run (fetchData showRefresh reply) st)
  | step_click seat st :
      seat ∈ seats st → seatDisabled st seat = false →
      step service st (run (handleSeatClick seat) st)
  | step_input fieldName value st :
      modalShown st = true →
      step service st (handleInputChange fieldName value st)
  | step_close st :
      modalShown st = true →
      step service st (run (handleCloseModal st) st)
  | step_confirm reply dateNow isoNow st :
      modalShown st = true → modalDisabled st = false → service reply →
      step service st (run (handleConfirmBooking st reply dateNow isoNow) st).

(** The states that the handlers reach from the first render. *)
Inductive reachable (service : Result (Response ConfirmBody) → Prop)
  : State → Prop :=
  | reachable_initial : reachable service initialState
  | reachable_step st st' :
      reachable service st → step service st st' → reachable service st'.

(** The local seats are what reconciliation makes of the local booking
    list (or nothing has been fetched yet). *)
Definition reconciled (st : State) : Prop :=
  (seats st = [] ∧ bookedUsers st = []) ∨
  seats st = markBookedSeats generateAllSeats (bookedUsers st).

(** What holds of the state between two handlers: the modal is open
    exactly when a seat is selected; the seats are none (before the first
    fetch) or have the addresses of the generated seats; a selected seat
    has the address of a generated seat and there are seats; the booking
    list holds confirmed records only; no indicator is left raised, apart
    from [loading] in the state of the first render. *)
Definition wellFormed (st : State) : Prop :=
  (showModal st = true ↔ is_Some (selectedSeat st)) ∧
  (seats st = [] ∨ layout (seats st) = layout generateAllSeats) ∧
  (∀ seat, selectedSeat st = Some seat →
     seats st ≠ [] ∧
     (id seat, row seat, number seat) ∈ layout generateAllSeats) ∧
  Forall (λ u, seatBooked u = true) (bookedUsers st) ∧
  refreshing st = false ∧
  (loading st = true → st = initialState).

(** The state after an accepted submission for [seat] that the service
    answered with the identifier [ident]. *)
Definition accepted (st : State) (seat : Seat) (ident : option string)
    (dateNow : Z) (isoNow : string) : State :=
  {| seats := bookLocally seat (name (formData st)) (seats st);
     selectedSeat := None; showModal := false; loading := false;
     refreshing := refreshing st; error := error st;
     bookedUsers := bookedUsers st
                    ++ [newBookedUser (formData st) seat ident dateNow isoNow];
     formData := emptyForm |}.

(** The state after a submission that a [null] body interrupted. *)
Definition interrupted (st : State) (seat : Seat) : State :=
  {| seats := bookLocally seat (name (formData st)) (seats st);
     selectedSeat := selectedSeat st; showModal := showModal st;
     loading := false; refreshing := refreshing st; error := error st;
     bookedUsers := bookedUsers st; formData := formData st |}.

(** A confirmation that answers 2xx with the document [null]. *)
Definition nullConfirmation (reply : Result (Response ConfirmBody)) : Prop :=
  ∃ response, reply = Ok response ∧ ok response = true ∧
              parsed response = Ok ConfirmNull.

(** ** More scenarios *)

(** The first fetch answered with the four records. *)
Definition loadedState : State :=
  run (fetchData false (replyWith (JArr (Some <$> fourRecords)))) initialState.

(** Seat 7 is clicked in [loadedState], the form is filled in and the
    submission is answered 200 with the body [null]. *)
Definition typedState : State :=
  handleInputChange "phone" "555"
    (handleInputChange "email" "e@x.com"
       (handleInputChange "name" "Eve"
          (run (handleSeatClick (newSeat 7)) loadedState))).

Definition brokenState : State :=
  run (handleConfirmBooking typedState (replyWith ConfirmNull) 0 "") typedState.

(** Unfolds a run into its list of events and its outcome. *)
Ltac unfold_run :=
  unfold run, try_finally, try_catch, emit, throw, await, trace, outcome,
    applyEvents, mbind, mret, M_bind, M_ret; simpl.

(** Unfolds the [try] block of a fetch, given the equation [Husers] of
    the [if] chain and the equation [Hfilter] of the filter. *)
Ltac after_parse showRefresh Husers Hfilter :=
  unfold fetchTry; destruct showRefresh; unfold_run; rewrite Husers;
  rewrite Hfilter.

(** * Properties *)

(** ** [findIndex] *)

Section find_index.
Context {A : Type} (p : A → bool).

Lemma findIndex_from_list_find (l : list A) (i : Z) :
  findIndex_from p l i =
  match list_find (λ x, p x = true) l with
  | Some (n, _) => i + Z.of_nat n
  | None => -1
  end.
Proof.
  revert i. induction l as [|x l IH]; intros i; simpl; [done|].
  destruct (p x) eqn:Hpx.
  - rewrite decide_True by done. simpl. lia.
  - rewrite decide_False by done.
    rewrite IH. destruct (list_find _ l) as [[n y]|]; simpl; [lia|done].
Qed.

Lemma findIndex_Some (l : list A) (n : nat) :
  findIndex p l = Z.of_nat n ↔
  ∃ x, l !! n = Some x ∧ p x = true ∧
       ∀ m y, l !! m = Some y → (m < n)%nat → p y = false.
Proof.
  unfold findIndex. rewrite findIndex_from_list_find.
  destruct (list_find _ l) as [[k y]|] eqn:Hf.
  - apply list_find_Some in Hf as (Hk & Hy & Hbefore). split.
    + intros Heq. assert (k = n) as -> by lia. exists y.
      split_and!; [done..|]. intros m z Hm Hlt.
      specialize (Hbefore m z Hm Hlt). by destruct (p z).
    + intros (x & Hn & Hx & Hmin).
      destruct (decide (k = n)) as [->|Hne]; [lia|]. exfalso.
      destruct (decide (k < n)%nat) as [Hlt|Hge].
      * specialize (Hmin k y Hk Hlt). congruence.
      * apply (Hbefore n x Hn); [lia|done].
  - split; [lia|]. intros (x & Hn & Hx & _). exfalso.
    apply list_find_None in Hf.
    rewrite Forall_forall in Hf. apply (Hf x); [|done].
    by eapply list_elem_of_lookup_2.
Qed.

Lemma findIndex_None (l : list A) :
  findIndex p l = -1 ↔ Forall (λ x, p x = false) l.
Proof.
  unfold findIndex. rewrite findIndex_from_list_find.
  destruct (list_find _ l) as [[k y]|] eqn:Hf.
  - apply list_find_Some in Hf as (Hk & Hy & _). split; [lia|].
    intros Hall. rewrite Forall_forall in Hall.
    assert (p y = false) by (apply Hall; by eapply list_elem_of_lookup_2).
    congruence.
  - split; [|done]. intros _. apply list_find_None in Hf.
    eapply Forall_impl; [exact Hf|]. intros x Hx. simpl in Hx. by destruct (p x).
Qed.

(** The index returned is [-1] or a position of the array. *)
Lemma findIndex_range (l : list A) :
  findIndex p l = -1 ∨
  ∃ n x, findIndex p l = Z.of_nat n ∧ l !! n = Some x ∧ p x = true.
Proof.
  unfold findIndex. rewrite findIndex_from_list_find.
  destruct (list_find _ l) as [[k y]|] eqn:Hf; [|by left].
  apply list_find_Some in Hf as (Hk & Hy & _).
  right. exists k, y. split_and!; [lia|done..].
Qed.
End find_index.

Lemma findIndex_fmap {A B} (f : A → B) (p : B → bool) (l : list A) :
  findIndex (λ x, p (f x)) l = findIndex p (f <$> l).
Proof.
  unfold findIndex. generalize 0. induction l as [|x l IH]; intros i; simpl; [done|].
  destruct (p (f x)); [done|]. apply IH.
Qed.

(** The search of [markBookedSeats] looks at the ids only. *)
Lemma findIndex_id (k : Z) (l : list Seat) :
  findIndex (λ seat, bool_decide (id seat = k)) l =
  findIndex (λ z, bool_decide (z = k)) (id <$> l).
Proof. exact (findIndex_fmap id (λ z, bool_decide (z = k)) l). Qed.

(** ** Reconciliation: what one record does, then what a collection does *)

Lemma book_book (s : Seat) (a b : string) : book (book s a) b = book s b.
Proof. done. Qed.

Lemma overlay_fields (w : option BookedUser) (s : Seat) :
  id (overlay w s) = id s ∧ row (overlay w s) = row s ∧
  number (overlay w s) = number s.
Proof. by destruct w. Qed.

(** One record rewrites at most the position it [hits]. *)
Lemma markUser_lookup (l : list Seat) (user : BookedUser) (n : nat) :
  markUser l user !! n =
  (λ s, if hits l n user then book s (u_name user) else s) <$> l !! n.
Proof.
  unfold markUser, hits.
  destruct (seatBooked user), (seatId user) as [k|];
    try by destruct (l !! n).
  destruct (findIndex_range (λ seat, bool_decide (id seat = k)) l)
    as [Hnone|(m & x & Hm & Hx & _)].
  - rewrite Hnone. rewrite bool_decide_eq_false_2 by lia.
    rewrite bool_decide_eq_false_2 by lia. by destruct (l !! n).
  - rewrite Hm, Nat2Z.id, Hx. rewrite bool_decide_eq_true_2 by lia.
    destruct (decide (m = n)) as [->|Hne].
    + rewrite bool_decide_eq_true_2 by done.
      rewrite list_lookup_insert_eq by (by eapply lookup_lt_Some).
      by rewrite Hx.
    + rewrite bool_decide_eq_false_2 by lia.
      rewrite list_lookup_insert_ne by done. by destruct (l !! n).
Qed.

Lemma markUser_ids (l : list Seat) (user : BookedUser) :
  id <$> markUser l user = id <$> l.
Proof.
  apply list_eq. intros n. rewrite !list_lookup_fmap, markUser_lookup.
  destruct (l !! n) as [s|]; simpl; [|done]. by destruct (hits l n user).
Qed.

Lemma markBookedSeats_nil (l : list Seat) : markBookedSeats l [] = l.
Proof. done. Qed.

Lemma markBookedSeats_snoc (l : list Seat) (users : list BookedUser) user :
  markBookedSeats l (users ++ [user]) = markUser (markBookedSeats l users) user.
Proof. unfold markBookedSeats. apply foldl_snoc. Qed.

Lemma markBookedSeats_app (l : list Seat) (us1 us2 : list BookedUser) :
  markBookedSeats l (us1 ++ us2) = markBookedSeats (markBookedSeats l us1) us2.
Proof. unfold markBookedSeats. apply foldl_app. Qed.

(** No record changes the id of a seat, so every record of a collection
    searches the same ids. *)
Lemma markBookedSeats_ids (l : list Seat) (users : list BookedUser) :
  id <$> markBookedSeats l users = id <$> l.
Proof.
  induction users as [|user users IH] using rev_ind; [done|].
  by rewrite markBookedSeats_snoc, markUser_ids.
Qed.

Lemma hits_ids (l l' : list Seat) (n : nat) (user : BookedUser) :
  id <$> l = id <$> l' → hits l n user = hits l' n user.
Proof.
  intros Hids. unfold hits.
  destruct (seatBooked user), (seatId user) as [k|]; try done.
  by rewrite !findIndex_id, Hids.
Qed.

Lemma winner_ids (l l' : list Seat) (n : nat) (users : list BookedUser) :
  id <$> l = id <$> l' → winner l n users = winner l' n users.
Proof.
  intros Hids. unfold winner. f_equal.
  apply List.filter_ext. intros user. by apply hits_ids.
Qed.

Lemma winner_snoc (l : list Seat) (n : nat) (users : list BookedUser) user :
  winner l n (users ++ [user]) =
  if hits l n user then Some user else winner l n users.
Proof.
  unfold winner. rewrite List.filter_app. simpl.
  destruct (hits l n user); [apply last_snoc|by rewrite app_nil_r].
Qed.

(** The result, position by position: the seat of the input, overwritten
    with the name of the last record that hits the position. *)
Lemma markBookedSeats_lookup (l : list Seat) (users : list BookedUser) (n : nat) :
  markBookedSeats l users !! n = overlay (winner l n users) <$> l !! n.
Proof.
  induction users as [|user users IH] using rev_ind.
  - simpl. by destruct (l !! n).
  - rewrite markBookedSeats_snoc, markUser_lookup, IH, winner_snoc.
    rewrite (hits_ids _ l) by apply markBookedSeats_ids.
    destruct (l !! n) as [s|]; simpl; [|done].
    destruct (hits l n user); [|done].
    by destruct (winner l n users).
Qed.

Lemma markBookedSeats_length (l : list Seat) (users : list BookedUser) :
  length (markBookedSeats l users) = length l.
Proof.
  rewrite <-(length_fmap id (markBookedSeats l users)), markBookedSeats_ids.
  apply length_fmap.
Qed.

(** A record hits the first seat with its id, when it is confirmed. *)
Lemma hits_firstWithId (l : list Seat) (n : nat) (user : BookedUser) :
  hits l n user = true ↔
  ∃ k s, seatBooked user = true ∧ seatId user = Some k ∧ firstWithId l n s k.
Proof.
  unfold hits, firstWithId. split.
  - destruct (seatBooked user), (seatId user) as [k|]; try done.
    intros Hidx%bool_decide_eq_true_1.
    apply findIndex_Some in Hidx as (s & Hn & Hs & Hmin).
    exists k, s. split_and!; [done..| |].
    + by apply bool_decide_eq_true_1 in Hs.
    + intros m s' Hm Hlt Hid. specialize (Hmin m s' Hm Hlt).
      by rewrite bool_decide_eq_true_2 in Hmin.
  - intros (k & s & -> & -> & Hn & Hs & Hmin).
    apply bool_decide_eq_true_2, findIndex_Some.
    exists s. split_and!; [done| |].
    + by apply bool_decide_eq_true_2.
    + intros m s' Hm Hlt. apply bool_decide_eq_false_2. by eapply Hmin.
Qed.

(** A record that is not confirmed, or whose [seatId] is the id of no seat,
    changes nothing. *)
Lemma markUser_ignored (l : list Seat) (user : BookedUser) :
  seatBooked user = false ∨ (∀ k, seatId user = Some k → k ∉ id <$> l) →
  markUser l user = l.
Proof.
  intros Hign. apply list_eq. intros n. rewrite markUser_lookup.
  destruct (hits l n user) eqn:Hhit; [|by destruct (l !! n)].
  apply hits_firstWithId in Hhit as (k & s & Hb & Hk & Hn & Hs & _).
  destruct Hign as [Hnb|Hnone]; [congruence|].
  exfalso. apply (Hnone k Hk). rewrite <-Hs.
  apply list_elem_of_fmap_2. by eapply list_elem_of_lookup_2.
Qed.

(** At the first seat with id [k], the records that hit are the confirmed
    records for [k]. *)
Lemma hits_confirmedFor (l : list Seat) (n : nat) (s : Seat) (k : Z) user :
  firstWithId l n s k → hits l n user = confirmedFor k user.
Proof.
  intros Hfirst. apply eq_true_iff_eq. rewrite hits_firstWithId.
  unfold confirmedFor. rewrite andb_true_iff, bool_decide_eq_true. split.
  - intros (k' & s' & Hb & Hk & Hn' & Hs' & _).
    destruct Hfirst as (Hn & Hs & _). naive_solver.
  - intros [Hb Hk]. by exists k, s.
Qed.

Lemma winner_Some (l : list Seat) (n : nat) (users : list BookedUser) w :
  winner l n users = Some w → w ∈ users ∧ hits l n w = true.
Proof.
  unfold winner. intros Hlast.
  assert (In w (List.filter (hits l n) users)) as Hin.
  { apply last_Some in Hlast as [l' ->]. apply in_or_app. right. by left. }
  apply List.filter_In in Hin as [Hin Hhit]. by rewrite list_elem_of_In.
Qed.

Lemma winner_is_Some (l : list Seat) (n : nat) (users : list BookedUser) user :
  user ∈ users → hits l n user = true → is_Some (winner l n users).
Proof.
  intros Hin Hhit. unfold winner.
  destruct (last _) eqn:Hlast; [done|]. apply last_None in Hlast.
  assert (In user (List.filter (hits l n) users)) as Hf
    by (apply List.filter_In; by rewrite <-list_elem_of_In).
  rewrite Hlast in Hf. destruct Hf.
Qed.

Lemma winner_last (l : list Seat) (n : nat) (us1 us2 : list BookedUser) user :
  hits l n user = true →
  Forall (λ later, hits l n later = false) us2 →
  winner l n (us1 ++ user :: us2) = Some user.
Proof.
  intros Hhit Hlater. unfold winner. rewrite List.filter_app. simpl.
  rewrite Hhit.
  assert (List.filter (hits l n) us2 = []) as ->.
  { induction Hlater as [|later us2 Hl _ IH]; [done|]. simpl. by rewrite Hl. }
  apply last_snoc.
Qed.

(** [findIndex] stops at the first seat with the id: were two seats to
    share an id, which the seat model builder never produces, a record
    would book the first of them only. *)
Example markBookedSeats_shared_id :
  markBookedSeats [newSeat 5; newSeat 5] [record "Bob" true (Some 5)]
  = [book (newSeat 5) "Bob"; newSeat 5].
Proof. reflexivity. Qed.

(** C1.  For every seat sequence and every collection of booking records:
    (a) for each record with [seatBooked = true] whose [seatId] is the id
    of a seat, the seat it matches (the first, and in a sequence with
    unique ids the only, seat with that id) has status [booked] in the
    result and carries the name of a confirmed record for that id;
    (b) records are applied in collection order: the name is that of the
    last confirmed record for the id;
    (c) a record with [seatBooked = false], or whose [seatId] is the id of
    no seat, leaves the result as it is without that record. *)
Theorem markBookedSeats_reconciles (allSeats : list Seat) (users : list BookedUser) :
  (∀ user k n s,
     user ∈ users → seatBooked user = true → seatId user = Some k →
     firstWithId allSeats n s k →
     ∃ w s', w ∈ users ∧ confirmedFor k w = true ∧
       markBookedSeats allSeats users !! n = Some s' ∧
       s' = book s (u_name w) ∧
       status s' = booked ∧ selectedBy s' = Some (u_name w)) ∧
  (∀ us1 user us2 k n s,
     users = us1 ++ user :: us2 →
     seatBooked user = true → seatId user = Some k →
     firstWithId allSeats n s k →
     Forall (λ later, confirmedFor k later = false) us2 →
     ∃ s', markBookedSeats allSeats users !! n = Some s' ∧
       status s' = booked ∧ selectedBy s' = Some (u_name user) ∧
       s' = book s (u_name user)) ∧
  (∀ us1 user us2,
     users = us1 ++ user :: us2 →
     seatBooked user = false ∨ (∀ k, seatId user = Some k → k ∉ id <$> allSeats) →
     markBookedSeats allSeats users = markBookedSeats allSeats (us1 ++ us2)).
Proof.
  split_and!.
  - intros user k n s Hin Hb Hk Hfirst.
    assert (hits allSeats n user = true) as Hhit.
    { rewrite (hits_confirmedFor _ _ _ _ _ Hfirst). unfold confirmedFor.
      rewrite Hb, Hk. by rewrite bool_decide_eq_true_2. }
    destruct (winner_is_Some _ _ _ _ Hin Hhit) as [w Hw].
    destruct (winner_Some _ _ _ _ Hw) as [Hwin Hwhit].
    rewrite (hits_confirmedFor _ _ _ _ _ Hfirst) in Hwhit.
    exists w, (book s (u_name w)). split_and!; try done.
    rewrite markBookedSeats_lookup, Hw. destruct Hfirst as [-> _]. done.
  - intros us1 user us2 k n s -> Hb Hk Hfirst Hlater.
    exists (book s (u_name user)). split_and!; try done.
    rewrite markBookedSeats_lookup, winner_last.
    + destruct Hfirst as [-> _]. done.
    + rewrite (hits_confirmedFor _ _ _ _ _ Hfirst). unfold confirmedFor.
      rewrite Hb, Hk. by rewrite bool_decide_eq_true_2.
    + eapply Forall_impl; [exact Hlater|]. intros later Hl. simpl.
      by rewrite (hits_confirmedFor _ _ _ _ _ Hfirst).
  - intros us1 user us2 -> Hign.
    rewrite !markBookedSeats_app.
    change (markBookedSeats ?l (user :: us2))
      with (markBookedSeats (markUser l user) us2).
    rewrite markUser_ignored; [done|].
    by rewrite markBookedSeats_ids.
Qed.

(** C9.  Reconciliation is idempotent: reconciling the result of a
    reconciliation again with the same booking collection returns it
    unchanged, statuses and occupant names included. *)
Theorem markBookedSeats_idempotent (allSeats : list Seat) (users : list BookedUser) :
  markBookedSeats (markBookedSeats allSeats users) users =
  markBookedSeats allSeats users.
Proof.
  apply list_eq. intros n. rewrite !markBookedSeats_lookup.
  rewrite (winner_ids _ allSeats) by apply markBookedSeats_ids.
  destruct (allSeats !! n) as [s|]; simpl; [|done].
  by destruct (winner allSeats n users).
Qed.

(** ** Reconciliation on the store refines [markBookedSeats] and writes
    to new cells only *)

Lemma heap_readObj_Some (σ : Heap.store) (l : Heap.loc) (s : Seat) :
  Heap.readObj σ l = Some s ↔ σ !! l = Some (Heap.Obj s).
Proof.
  unfold Heap.readObj. destruct (σ !! l) as [[s'|elems]|]; naive_solver.
Qed.

(** [seatsOf σ a = Some seats], unfolded. *)
Lemma heap_seatsOf_Some (σ : Heap.store) (a : Heap.loc) (seats : list Seat) :
  Heap.seatsOf σ a = Some seats ↔
  ∃ elems, σ !! a = Some (Heap.Arr elems) ∧
           Forall2 (λ l s, σ !! l = Some (Heap.Obj s)) elems seats.
Proof.
  unfold Heap.seatsOf, Heap.readArr. split.
  - destruct (σ !! a) as [[s|elems]|]; simpl; try done.
    intros Hm%mapM_Some. exists elems. split; [done|].
    eapply Forall2_impl; [exact Hm|]. intros l s. apply heap_readObj_Some.
  - intros (elems & -> & Hall). simpl. apply mapM_Some.
    eapply Forall2_impl; [exact Hall|]. intros l s. apply heap_readObj_Some.
Qed.

Lemma heap_fresh_None (σ : Heap.store) : σ !! fresh (dom σ) = None.
Proof. apply not_elem_of_dom, is_fresh. Qed.

(** One call of the callback: the array at [a] denotes what [markUser]
    returns, and every other cell that existed keeps its content. *)
Lemma heap_markUser_step (σ : Heap.store) (a : Heap.loc) (seats : list Seat)
    (user : BookedUser) :
  Heap.seatsOf σ a = Some seats →
  ∃ σ', Heap.markUser a σ user = Some σ' ∧
        Heap.seatsOf σ' a = Some (markUser seats user) ∧
        ∀ l, l ≠ a → is_Some (σ !! l) → σ' !! l = σ !! l.
Proof.
  intros Hden. unfold Heap.markUser, markUser.
  destruct (seatBooked user), (seatId user) as [k|]; try by exists σ.
  rewrite Hden. simpl.
  destruct (findIndex_range (λ seat, bool_decide (id seat = k)) seats)
    as [Hnone|(m & x & Hm & Hx & _)].
  { rewrite Hnone, bool_decide_eq_false_2 by lia. by exists σ. }
  rewrite Hm, Nat2Z.id, Hx, bool_decide_eq_true_2 by lia. simpl.
  apply heap_seatsOf_Some in Hden as (elems & Ha & Hall).
  set (o := fresh (dom σ)).
  assert (σ !! o = None) as Ho by apply heap_fresh_None.
  assert (o ≠ a) as Hoa by congruence.
  unfold Heap.readArr. rewrite lookup_insert_ne, Ha by done. simpl.
  eexists. split; [done|]. split.
  - apply heap_seatsOf_Some. eexists. split; [apply lookup_insert_eq|].
    apply Forall2_insert.
    + eapply Forall2_impl; [exact Hall|]. intros l s Hl. simpl in *.
      rewrite !lookup_insert_ne; [done|congruence..].
    + rewrite lookup_insert_ne, lookup_insert_eq by done. done.
  - intros l Hla [c Hc].
    rewrite !lookup_insert_ne; [done|congruence..].
Qed.

Lemma heap_forEach_markUser (users : list BookedUser) (σ : Heap.store)
    (a : Heap.loc) (seats : list Seat) :
  Heap.seatsOf σ a = Some seats →
  ∃ σ', Heap.forEach (Heap.markUser a) users σ = Some σ' ∧
        Heap.seatsOf σ' a = Some (markBookedSeats seats users) ∧
        ∀ l, l ≠ a → is_Some (σ !! l) → σ' !! l = σ !! l.
Proof.
  revert σ seats. induction users as [|user users IH]; intros σ seats Hden.
  { by exists σ. }
  destruct (heap_markUser_step σ a seats user Hden) as (σ1 & Hstep & Hden1 & Hframe1).
  destruct (IH σ1 _ Hden1) as (σ' & Hrest & Hden' & Hframe).
  exists σ'. simpl. rewrite Hstep. simpl. split_and!; [done..|].
  intros l Hla Hl. rewrite Hframe; [by apply Hframe1|done|].
  by rewrite Hframe1.
Qed.

(** What reconciliation may change in a seat: nothing, or status and
    occupant under a confirmed record for the id of the seat. *)
Lemma markBookedSeats_seat (seats : list Seat) (users : list BookedUser) n s :
  seats !! n = Some s →
  ∃ s', markBookedSeats seats users !! n = Some s' ∧
        id s' = id s ∧ row s' = row s ∧ number s' = number s ∧
        (s' = s ∨ ∃ user, user ∈ users ∧ confirmedFor (id s) user = true ∧
                          s' = book s (u_name user)).
Proof.
  intros Hn. exists (overlay (winner seats n users) s).
  rewrite markBookedSeats_lookup, Hn. split; [done|].
  destruct (overlay_fields (winner seats n users) s) as (-> & -> & ->).
  split_and!; try done.
  destruct (winner seats n users) as [w|] eqn:Hw; [right|by left].
  apply winner_Some in Hw as [Hin Hhit]. exists w. split_and!; try done.
  apply hits_firstWithId in Hhit as (k & s0 & Hb & Hk & Hn0 & Hs0 & _).
  assert (s0 = s) as -> by congruence.
  unfold confirmedFor. rewrite Hb, Hk, Hs0. by rewrite bool_decide_eq_true_2.
Qed.

(** C10.  For every seat sequence (an array [allSeats] of a store [σ] that
    denotes [seats]) and every booking collection, [markBookedSeats]
    returns a new array; every cell that the store had before the call,
    the input array and its seat objects among them, holds afterwards
    what it held before; the result has the length of the input, every
    seat keeps its id, row and number, and a seat differs from the input
    seat only in status and occupant, and only when a confirmed record
    matches its id. *)
Theorem markBookedSeats_frame (σ : Heap.store) (allSeats : Heap.loc)
    (seats : list Seat) (users : list BookedUser) :
  Heap.seatsOf σ allSeats = Some seats →
  ∃ σ' updatedSeats,
    Heap.markBookedSeats σ allSeats users = Some (σ', updatedSeats) ∧
    (∀ l, is_Some (σ !! l) → σ' !! l = σ !! l) ∧
    σ !! updatedSeats = None ∧
    Heap.seatsOf σ' allSeats = Some seats ∧
    Heap.seatsOf σ' updatedSeats = Some (markBookedSeats seats users) ∧
    length (markBookedSeats seats users) = length seats ∧
    ∀ n s, seats !! n = Some s →
      ∃ s', markBookedSeats seats users !! n = Some s' ∧
            id s' = id s ∧ row s' = row s ∧ number s' = number s ∧
            (s' = s ∨ ∃ user, user ∈ users ∧ confirmedFor (id s) user = true ∧
                              s' = book s (u_name user)).
Proof.
  intros Hden.
  pose proof Hden as (elems & Ha & Hall)%heap_seatsOf_Some.
  set (u := fresh (dom σ)).
  assert (σ !! u = None) as Hu by apply heap_fresh_None.
  assert (Heap.seatsOf (<[u := Heap.Arr elems]> σ) u = Some seats) as Hden0.
  { apply heap_seatsOf_Some. exists elems. split; [apply lookup_insert_eq|].
    eapply Forall2_impl; [exact Hall|]. intros l s Hl. simpl in *.
    rewrite lookup_insert_ne; [done|congruence]. }
  destruct (heap_forEach_markUser users _ u seats Hden0)
    as (σ' & Hrun & Hden' & Hframe).
  assert (∀ l, is_Some (σ !! l) → σ' !! l = σ !! l) as Hkeep.
  { intros l [c Hc]. assert (l ≠ u) by congruence.
    rewrite Hframe; [by rewrite lookup_insert_ne|done|].
    rewrite lookup_insert_ne by done. by exists c. }
  exists σ', u. split_and!; try done.
  - unfold Heap.markBookedSeats, Heap.readArr. rewrite Ha. simpl.
    fold u. rewrite Hrun. done.
  - apply heap_seatsOf_Some. exists elems. split.
    + rewrite Hkeep; [done|by eexists].
    + eapply Forall2_impl; [exact Hall|]. intros l s Hl. simpl in *.
      rewrite Hkeep; [done|by eexists].
  - apply markBookedSeats_length.
  - intros n s. apply markBookedSeats_seat.
Qed.

(** ** Seat model builder *)

(** The loop appends the seats of the counters [i], [i+1], ... in order. *)
Lemma pushSeats_seqZ (n : nat) (i : Z) (acc : list Seat) :
  pushSeats n i acc = acc ++ (newSeat <$> seqZ i (Z.of_nat n)).
Proof.
  revert i acc. induction n as [|n IH]; intros i acc.
  - simpl. by rewrite app_nil_r.
  - cbn [pushSeats]. rewrite IH, (seqZ_cons i) by lia.
    rewrite <-app_assoc. simpl. repeat f_equal; lia.
Qed.

Lemma generateAllSeats_seqZ : generateAllSeats = newSeat <$> seqZ 0 80.
Proof. unfold generateAllSeats. by rewrite pushSeats_seqZ. Qed.

Lemma charCode_fromCharCode (c : Z) : 0 ≤ c < 256 → charCode (fromCharCode c) = c.
Proof.
  intros Hc. unfold charCode, fromCharCode.
  rewrite Ascii.N_ascii_embedding by lia. lia.
Qed.

(** The address of the seat built for counter [i]. *)
Lemma newSeat_address (i : Z) :
  0 ≤ i < 80 →
  rows !! Z.to_nat (i `div` 10) = Some (row (newSeat i)) ∧
  number (newSeat i) = i `mod` 10 + 1 ∧
  1 ≤ number (newSeat i) ≤ 10 ∧
  i = (charCode (row (newSeat i)) - 65) * 10 + (number (newSeat i) - 1).
Proof.
  intros Hi.
  change (row (newSeat i)) with (fromCharCode (65 + i `div` 10)).
  change (number (newSeat i)) with (i `rem` 10 + 1).
  assert (0 ≤ i `div` 10 < 8) as Hq
    by (split; [apply Z.div_pos; lia|apply Z.div_lt_upper_bound; lia]).
  rewrite Z.rem_mod_nonneg by lia.
  pose proof (Z.mod_pos_bound i 10 ltac:(lia)) as Hr.
  pose proof (Z.div_mod i 10 ltac:(lia)) as Hdm.
  split_and!; [|done|lia|lia|rewrite charCode_fromCharCode by lia; lia].
  assert (∃ q : nat, i `div` 10 = Z.of_nat q ∧ (q < 8)%nat) as (q & -> & Hlt).
  { exists (Z.to_nat (i `div` 10)). lia. }
  rewrite Nat2Z.id.
  do 8 (destruct q as [|q]; [reflexivity|]). lia.
Qed.

(** C8.  [generateAllSeats] (capacity 80, row width 10) is a fixed
    sequence of exactly 80 seats whose ids are 0, 1, ..., 79 in order
    (hence unique); every seat is [available] with no occupant, its row is
    the letter for [floor(id / 10)] counted from 'A', its number is
    [(id mod 10) + 1], and its address gives the id back:
    [id = rowIndex * 10 + (number - 1)]. *)
Theorem generateAllSeats_spec :
  length generateAllSeats = 80%nat ∧
  id <$> generateAllSeats = seqZ 0 80 ∧
  NoDup (id <$> generateAllSeats) ∧
  Forall (λ s,
    status s = available ∧ selectedBy s = None ∧
    row s = fromCharCode (65 + id s `div` 10) ∧
    rows !! Z.to_nat (id s `div` 10) = Some (row s) ∧
    number s = id s `mod` 10 + 1 ∧
    id s = (charCode (row s) - 65) * 10 + (number s - 1)) generateAllSeats.
Proof.
  assert (id <$> generateAllSeats = seqZ 0 80) as Hids.
  { rewrite generateAllSeats_seqZ, <-list_fmap_compose.
    rewrite <-(list_fmap_id (seqZ 0 80)) at 2. done. }
  split_and!.
  - by rewrite generateAllSeats_seqZ, length_fmap, length_seqZ.
  - done.
  - rewrite Hids. apply NoDup_seqZ.
  - rewrite generateAllSeats_seqZ, Forall_fmap. apply Forall_seqZ.
    intros i Hi.
    destruct (newSeat_address i) as (Hrow & Hnum & _ & Hback); [lia|].
    split_and!; done.
Qed.

(** ** Runs: traces, outcomes, queued updates *)

Lemma trace_try_finally {A} (body : M A) (fin : M unit) :
  trace (try_finally body fin) = trace body ++ trace fin.
Proof. by destruct body as [t r], fin as [t' [[]|e]]. Qed.

Lemma trace_try_catch_Ok {A} (body : M A) (handler : Exn → M A) a :
  outcome body = Ok a → trace (try_catch body handler) = trace body.
Proof. destruct body as [t r]. simpl. by intros ->. Qed.

Lemma trace_try_catch_Raise {A} (body : M A) (handler : Exn → M A) e :
  outcome body = Raise e →
  trace (try_catch body handler) = trace body ++ trace (handler e).
Proof. destruct body as [t r]. simpl. intros ->. by destruct (handler e). Qed.

Lemma applyEvents_app (st : State) (t1 t2 : list Event) :
  applyEvents st (t1 ++ t2) = applyEvents (applyEvents st t1) t2.
Proof. apply foldl_app. Qed.

(** ** The fetch cycle *)

#[local] Opaque generateAllSeats markBookedSeats pretty.

(** The [if] chain returns the list of the accepted shape, and the empty
    list, with a console warning, for any other document that is not
    [null]. *)
Lemma usersDataOf_not_null (data : json) :
  data ≠ JNull →
  usersDataOf data =
  (match acceptedShape data with
   | Some _ => []
   | None => [Console WarnLevel "Unexpected response format, using empty array"]
   end,
   Ok (default [] (acceptedShape data))).
Proof.
  intros Hnn. destruct data as [|b|n|s|l|fields]; try done.
  unfold usersDataOf, getProp, acceptedShape. simpl. unfold_run.
  destruct (ownProp "data" fields) as [[|[]|n|s|l|fs]|];
    destruct (ownProp "users" fields) as [[|[]|n'|s'|l'|fs']|];
    simpl; repeat case_bool_decide; simpl; done.
Qed.

(** On [null] the first property access throws. *)
Lemma usersDataOf_null :
  usersDataOf JNull =
  ([], Raise (mkExn "Cannot read properties of null (reading 'data')")).
Proof. reflexivity. Qed.

#[local] Opaque usersDataOf.

(** The filter keeps the confirmed records, and throws when an element
    is [null]. *)
Lemma filterBooked_recordsOf (l : list (option BookedUser)) :
  filterBooked l =
  match recordsOf l with
  | Some records => ([], Ok (List.filter (λ user, seatBooked user) records))
  | None =>
      ([], Raise (mkExn "Cannot read properties of null (reading 'seatBooked')"))
  end.
Proof.
  induction l as [|[user|] l IH]; [done| |done].
  simpl. rewrite IH. destruct (recordsOf l) as [records|]; [|done].
  simpl. by destruct (seatBooked user).
Qed.

#[local] Opaque filterBooked.

Lemma fetchData_parsed (showRefresh : bool) (response : Response json)
    (data : json) (records : list BookedUser) (st : State) :
  ok response = true → parsed response = Ok data → data ≠ JNull →
  recordsOf (default [] (acceptedShape data)) = Some records →
  outcome (fetchData showRefresh (Ok response)) = Ok tt ∧
  run (fetchData showRefresh (Ok response)) st = fetched st records ∧
  warnings (trace (fetchData showRefresh (Ok response)))
  = match acceptedShape data with
    | Some _ => []
    | None => ["Unexpected response format, using empty array"]
    end.
Proof.
  intros Hok Hparsed Hnn Hrecords. destruct response as [okb code txt body].
  simpl in Hok, Hparsed. subst okb body.
  unfold fetchData, fetchFinally, fetchCatch, fetched.
  after_parse showRefresh (usersDataOf_not_null data Hnn)
    filterBooked_recordsOf; rewrite Hrecords;
    by destruct (acceptedShape data).
Qed.

Lemma generateAllSeats_available :
  Forall (λ s, status s = available ∧ selectedBy s = None) generateAllSeats.
Proof.
  rewrite generateAllSeats_seqZ, Forall_fmap. by apply Forall_seqZ.
Qed.

(** Whatever the reply, the [try] block of a fetch either completes or
    throws; it throws on a failed fetch, on the document [null] and on an
    array with a [null] element. *)
Lemma fetchTry_outcome (showRefresh : bool) (reply : Result (Response json)) :
  match reply with
  | Raise e => outcome (fetchTry showRefresh reply) = Raise e
  | Ok response =>
      if ok response then
        match parsed response with
        | Raise e => outcome (fetchTry showRefresh reply) = Raise e
        | Ok JNull =>
            outcome (fetchTry showRefresh reply)
            = Raise (mkExn "Cannot read properties of null (reading 'data')")
        | Ok data =>
            outcome (fetchTry showRefresh reply)
            = match recordsOf (default [] (acceptedShape data)) with
              | Some _ => Ok tt
              | None =>
                  Raise (mkExn "Cannot read properties of null (reading 'seatBooked')")
              end
        end
      else outcome (fetchTry showRefresh reply)
           = Raise (mkExn ("HTTP error! status: " +:+ pretty (http_status response)))
  end.
Proof.
  destruct reply as [[[] code txt [data|e]]|e]; simpl;
    try (by destruct showRefresh).
  assert (∀ d, d ≠ JNull → outcome (fetchTry showRefresh
            (Ok (mkResponse true code txt (Ok d))))
          = match recordsOf (default [] (acceptedShape d)) with
            | Some _ => Ok tt
            | None =>
                Raise (mkExn "Cannot read properties of null (reading 'seatBooked')")
            end) as Hok.
  { intros d Hd. after_parse showRefresh (usersDataOf_not_null d Hd)
      filterBooked_recordsOf; by destruct (recordsOf _). }
  destruct data; try (by apply Hok).
  unfold fetchTry. destruct showRefresh; unfold_run; by rewrite usersDataOf_null.
Qed.

Lemma fetchFailed_thrown (showRefresh : bool) (reply : Result (Response json)) :
  fetchFailed reply → ∃ e, outcome (fetchTry showRefresh reply) = Raise e.
Proof.
  pose proof (fetchTry_outcome showRefresh reply) as Hout.
  destruct reply as [response|e]; simpl; [|by eauto].
  intros [Hok|[e He]].
  - rewrite Hok in Hout. by eauto.
  - destruct (ok response); [|by eauto]. rewrite He in Hout. by eauto.
Qed.

(** A fetch cycle whose [try] block throws: the handler of [catch] and
    the [finally] block leave the fallback state, after one request and
    with no timer set. *)
Lemma fetchData_thrown (showRefresh : bool) (reply : Result (Response json))
    (st : State) (e : Exn) :
  outcome (fetchTry showRefresh reply) = Raise e →
  run (fetchData showRefresh reply) st = fellBack st ∧
  requests (trace (fetchData showRefresh reply))
  = [HttpGet "http://localhost:3000/get-bookings"] ∧
  timers (trace (fetchData showRefresh reply)) = [].
Proof.
  intros Hthrown.
  pose proof (fetchTry_outcome showRefresh reply) as Hout.
  unfold fetchData, fetchCatch, fetchFinally, fellBack.
  destruct reply as [[[] code txt [data|e']]|e']; simpl in Hout.
  - assert (data = JNull ∨ data ≠ JNull) as [->|Hnn] by (destruct data; auto).
    + unfold fetchTry. destruct showRefresh; unfold_run;
        rewrite usersDataOf_null; by simpl.
    + assert (recordsOf (default [] (acceptedShape data)) = None) as Hnull.
      { destruct data; try done;
          (destruct (recordsOf _); [congruence|done]). }
      after_parse showRefresh (usersDataOf_not_null data Hnn)
        filterBooked_recordsOf; rewrite Hnull;
        destruct (acceptedShape data); by simpl.
  - unfold fetchTry. by destruct showRefresh.
  - unfold fetchTry. by destruct showRefresh.
  - unfold fetchTry. by destruct showRefresh.
  - unfold fetchTry. by destruct showRefresh.
Qed.

Lemma outcome_fetchData (showRefresh : bool) (reply : Result (Response json)) :
  outcome (fetchData showRefresh reply) = Ok tt.
Proof.
  unfold fetchData, fetchFinally, fetchCatch.
  destruct (fetchTry showRefresh reply) as [t [[]|e]]; reflexivity.
Qed.

Lemma trace_fetchData (showRefresh : bool) (reply : Result (Response json)) :
  trace (fetchData showRefresh reply) =
  trace (try_catch (fetchTry showRefresh reply) fetchCatch)
  ++ [SetLoading false; SetRefreshing false].
Proof. unfold fetchData. by rewrite trace_try_finally. Qed.

(** C4.  On every exit path of [fetchData] (the [try] block completes or
    throws) the call itself completes and leaves [loading] and
    [refreshing] false.  On a transport or parsing failure it leaves the
    error set to the text "Failed to load seat data. Using demo data
    instead.", which the view shows as its banner, the seats equal to the
    generated all-available set and the booking list empty, having sent
    the one request, to the bookings address, and set no timer: it does
    not retry. *)
Theorem fetchData_failure_and_release (showRefresh : bool)
    (reply : Result (Response json)) (st : State) :
  (outcome (fetchData showRefresh reply) = Ok tt ∧
   loading (run (fetchData showRefresh reply) st) = false ∧
   refreshing (run (fetchData showRefresh reply) st) = false) ∧
  (fetchFailed reply →
   error (run (fetchData showRefresh reply) st)
   = Some "Failed to load seat data. Using demo data instead." ∧
   banner (run (fetchData showRefresh reply) st)
   = Some "Failed to load seat data. Using demo data instead." ∧
   seats (run (fetchData showRefresh reply) st) = generateAllSeats ∧
   Forall (λ s, status s = available ∧ selectedBy s = None)
          (seats (run (fetchData showRefresh reply) st)) ∧
   bookedUsers (run (fetchData showRefresh reply) st) = [] ∧
   requests (trace (fetchData showRefresh reply))
   = [HttpGet "http://localhost:3000/get-bookings"] ∧
   timers (trace (fetchData showRefresh reply)) = []).
Proof.
  split.
  - split; [apply outcome_fetchData|].
    unfold run. rewrite trace_fetchData, applyEvents_app. done.
  - intros [e He]%(fetchFailed_thrown showRefresh).
    destruct (fetchData_thrown showRefresh reply st e He) as (-> & -> & ->).
    split_and!; try done. apply generateAllSeats_available.
Qed.

(** The three accepted shapes with one list [l] lead to one state: that
    of the records of [l], or the fallback state when [l] has a [null]
    element. *)
Lemma fetchData_shapes (showRefresh : bool) (l : list (option BookedUser))
    (st : State) :
  let bare := run (fetchData showRefresh (replyWith (JArr l))) st in
  run (fetchData showRefresh (replyWith (JObj [("data", JArr l)]))) st = bare ∧
  run (fetchData showRefresh (replyWith (JObj [("users", JArr l)]))) st = bare ∧
  bare = match recordsOf l with
         | Some records => fetched st records
         | None => fellBack st
         end.
Proof.
  assert (∀ d, d ≠ JNull → default [] (acceptedShape d) = l →
            run (fetchData showRefresh (replyWith d)) st
            = match recordsOf l with
              | Some records => fetched st records
              | None => fellBack st
              end) as Hrun.
  { intros d Hd Hl. unfold replyWith.
    destruct (recordsOf l) as [records|] eqn:Hrecords.
    - by destruct (fetchData_parsed showRefresh
                     (mkResponse true 200 (Ok "") (Ok d)) d records st
                     eq_refl eq_refl Hd) as (_ & -> & _); [by rewrite Hl|].
    - pose proof (fetchTry_outcome showRefresh
                    (Ok (mkResponse true 200 (Ok "") (Ok d)))) as Hout.
      assert (outcome (fetchTry showRefresh
                (Ok (mkResponse true 200 (Ok "") (Ok d))))
              = Raise (mkExn "Cannot read properties of null (reading 'seatBooked')"))
        as Hthrown.
      { simpl in Hout. rewrite Hl, Hrecords in Hout. by destruct d. }
      by destruct (fetchData_thrown _ _ st _ Hthrown) as (-> & _). }
  intros bare. subst bare. split_and!; by rewrite !Hrun.
Qed.

(** C3 does not hold on the document [null].  A reply with a 2xx status
    whose body is the JSON document [null] is not one of the three
    accepted shapes, yet it is not treated as an empty list:
    reading [data.data] throws, the [catch] block runs and the error banner
    is set, with no console warning about the format. *)
Theorem fetchData_null_body (showRefresh : bool) (code : Z)
    (txt : Result string) (st : State) :
  let reply := Ok (mkResponse true code txt (Ok JNull)) in
  acceptedShape JNull = None ∧
  error (run (fetchData showRefresh reply) st)
  = Some "Failed to load seat data. Using demo data instead." ∧
  warnings (trace (fetchData showRefresh reply)) = [] ∧
  seats (run (fetchData showRefresh reply) st) = generateAllSeats ∧
  bookedUsers (run (fetchData showRefresh reply) st) = [].
Proof.
  intros reply.
  destruct (fetchData_thrown showRefresh reply st _
              (fetchTry_outcome showRefresh reply)) as (-> & _ & _).
  split_and!; try done.
  unfold reply, fetchData, fetchTry, fetchCatch, fetchFinally.
  destruct showRefresh; unfold_run; rewrite usersDataOf_null; by simpl.
Qed.

(** C7, as amended.  A reply whose body parses to a document that is not
    [null] and has none of the three accepted shapes is treated as empty
    data: the seats are the generated all-available set and the booking
    list is empty, as after a transport or parsing failure.  The two are
    told apart on screen: after the unexpected shape the error is cleared
    (no banner, a console warning only), after the failure the banner is
    set. *)
Theorem fetchData_unexpected_shape (showRefresh : bool)
    (response : Response json) (data : json)
    (failed : Result (Response json)) (st : State) :
  ok response = true → parsed response = Ok data →
  data ≠ JNull → acceptedShape data = None →
  fetchFailed failed →
  seats (run (fetchData showRefresh (Ok response)) st) = generateAllSeats ∧
  bookedUsers (run (fetchData showRefresh (Ok response)) st) = [] ∧
  seats (run (fetchData showRefresh failed) st) = generateAllSeats ∧
  bookedUsers (run (fetchData showRefresh failed) st) = [] ∧
  error (run (fetchData showRefresh (Ok response)) st) = None ∧
  warnings (trace (fetchData showRefresh (Ok response)))
  = ["Unexpected response format, using empty array"] ∧
  error (run (fetchData showRefresh failed) st)
  = Some "Failed to load seat data. Using demo data instead." ∧
  banner (run (fetchData showRefresh (Ok response)) st) = None ∧
  banner (run (fetchData showRefresh failed) st)
  = Some "Failed to load seat data. Using demo data instead.".
Proof.
  intros Hok Hparsed Hnn Hshape [e He]%(fetchFailed_thrown showRefresh).
  destruct (fetchData_parsed showRefresh response data [] st Hok Hparsed Hnn)
    as (_ & -> & ->); [by rewrite Hshape|].
  destruct (fetchData_thrown showRefresh failed st e He) as (-> & _ & _).
  rewrite Hshape. simpl. by rewrite markBookedSeats_nil.
Qed.

(** ** The submission cycle *)

Lemma handleConfirmBooking_valid (st : State) (seat : Seat)
    (reply : Result (Response ConfirmBody)) (dateNow : Z) (isoNow : string) :
  filled (formData st) → selectedSeat st = Some seat →
  handleConfirmBooking st reply dateNow isoNow =
  (emit (SetLoading true);;
   try_finally (try_catch (confirmTry st seat reply dateNow isoNow) confirmCatch)
               confirmFinally).
Proof.
  intros (Hname & Hemail & Hphone) Hsel. unfold handleConfirmBooking.
  rewrite Hsel. by rewrite !bool_decide_eq_false_2 by done.
Qed.

(** The whole run of a submission that the service accepts. *)
Lemma handleConfirmBooking_accepted (st : State) (seat : Seat)
    (response : Response ConfirmBody) (ident : option string)
    (dateNow : Z) (isoNow : string) :
  filled (formData st) → selectedSeat st = Some seat →
  ok response = true → parsed response = Ok (ConfirmData ident) →
  handleConfirmBooking st (Ok response) dateNow isoNow =
  ([SetLoading true;
    Console LogLevel "Sending booking data:";
    HttpPost "http://localhost:3000/confirm-booking" (bookingDataOf (formData st) seat);
    Console LogLevel "Booking confirmed:";
    SetSeats (bookLocally seat (name (formData st)) (seats st));
    AppendBookedUser (newBookedUser (formData st) seat ident dateNow isoNow);
    SetShowModal false;
    SetFormData emptyForm;
    SetSelectedSeat None;
    Alert ("ðŸŽ‰ Ticket booked successfully for " +:+ name (formData st)
           +:+ "! Seat: " +:+ row seat +:+ pretty (number seat));
    SetTimeout (CallFetchData false) 500;
    SetLoading false], Ok tt).
Proof.
  intros Hfilled Hsel Hok Hparsed.
  rewrite (handleConfirmBooking_valid st seat) by done.
  destruct response as [okb code txt body]. simpl in Hok, Hparsed.
  subst okb body. reflexivity.
Qed.

(** The whole run of a submission that the service rejects. *)
Lemma handleConfirmBooking_rejected (st : State) (seat : Seat)
    (response : Response ConfirmBody) (dateNow : Z) (isoNow : string) :
  filled (formData st) → selectedSeat st = Some seat →
  ok response = false →
  handleConfirmBooking st (Ok response) dateNow isoNow =
  ([SetLoading true;
    Console LogLevel "Sending booking data:";
    HttpPost "http://localhost:3000/confirm-booking" (bookingDataOf (formData st) seat);
    Console ErrorLevel "Error confirming booking:";
    Alert ("Failed to confirm booking: " +:+ rejection response);
    SetLoading false], Ok tt).
Proof.
  intros Hfilled Hsel Hok.
  rewrite (handleConfirmBooking_valid st seat) by done.
  destruct response as [okb code [errorText|e] body]; simpl in Hok;
    subst okb; reflexivity.
Qed.

(** A 2xx reply whose body is the document [null]: the seats are updated,
    then reading [data._id] throws and the failure is alerted; no record is
    appended and the modal stays open. *)
Lemma handleConfirmBooking_null_body (st : State) (seat : Seat)
    (code : Z) (txt : Result string) (dateNow : Z) (isoNow : string) :
  filled (formData st) → selectedSeat st = Some seat →
  handleConfirmBooking st (Ok (mkResponse true code txt (Ok ConfirmNull)))
    dateNow isoNow =
  ([SetLoading true;
    Console LogLevel "Sending booking data:";
    HttpPost "http://localhost:3000/confirm-booking" (bookingDataOf (formData st) seat);
    Console LogLevel "Booking confirmed:";
    SetSeats (bookLocally seat (name (formData st)) (seats st));
    Console ErrorLevel "Error confirming booking:";
    Alert "Failed to confirm booking: Cannot read properties of null (reading '_id')";
    SetLoading false], Ok tt).
Proof.
  intros Hfilled Hsel.
  by rewrite (handleConfirmBooking_valid st seat) by done.
Qed.

Lemma bookLocally_lookup (seat : Seat) (n : string) (l : list Seat) i s :
  l !! i = Some s → id s = id seat →
  bookLocally seat n l !! i = Some (book s n).
Proof.
  intros Hi Hid. unfold bookLocally. rewrite list_lookup_fmap, Hi. simpl.
  by rewrite bool_decide_eq_true_2.
Qed.

Lemma bookLocally_other (seat : Seat) (n : string) (l : list Seat) i s :
  l !! i = Some s → id s ≠ id seat → bookLocally seat n l !! i = Some s.
Proof.
  intros Hi Hid. unfold bookLocally. rewrite list_lookup_fmap, Hi. simpl.
  by rewrite bool_decide_eq_false_2.
Qed.

(** C5.  A submission with [name], [email] and [phone] filled in, a seat
    selected and a success reply (2xx, a body that parses to a document
    other than [null]) leaves: every seat with the id of the selected
    seat [booked] under the submitted name and the other seats as they
    were; one more record at the end of the booking list, with the
    identifier of the reply if it has a non-empty one and the clock reading
    otherwise, with [createdAt] the current time; the modal closed; the
    form and the selection reset; one alert, of success; one timer, for a
    full re-fetch after 500 ms. *)
Theorem handleConfirmBooking_success (st : State) (seat : Seat)
    (response : Response ConfirmBody) (ident : option string)
    (dateNow : Z) (isoNow : string) :
  filled (formData st) → selectedSeat st = Some seat →
  ok response = true → parsed response = Ok (ConfirmData ident) →
  let m := handleConfirmBooking st (Ok response) dateNow isoNow in
  let st' := run m st in
  outcome m = Ok tt ∧
  (∀ i s, seats st !! i = Some s → id s = id seat →
     ∃ s', seats st' !! i = Some s' ∧ status s' = booked ∧
           selectedBy s' = Some (name (formData st)) ∧
           id s' = id s ∧ row s' = row s ∧ number s' = number s) ∧
  (∀ i s, seats st !! i = Some s → id s ≠ id seat → seats st' !! i = Some s) ∧
  length (seats st') = length (seats st) ∧
  (∃ record,
     bookedUsers st' = bookedUsers st ++ [record] ∧
     _id record = match ident with
                  | Some i => if bool_decide (i ≠ "") then i else pretty dateNow
                  | None => pretty dateNow
                  end ∧
     createdAt record = isoNow ∧
     u_name record = name (formData st) ∧
     u_email record = email (formData st) ∧
     u_phone record = phone (formData st) ∧
     u_payment record = payment (formData st) ∧
     seatBooked record = true ∧ seatId record = Some (id seat)) ∧
  showModal st' = false ∧
  formData st' = {| name := ""; email := ""; phone := ""; payment := "card";
                    others := ∅ |} ∧
  selectedSeat st' = None ∧
  loading st' = false ∧
  alerts (trace m)
  = ["ðŸŽ‰ Ticket booked successfully for " +:+ name (formData st)
     +:+ "! Seat: " +:+ row seat +:+ pretty (number seat)] ∧
  timers (trace m) = [SetTimeout (CallFetchData false) 500] ∧
  requests (trace m)
  = [HttpPost "http://localhost:3000/confirm-booking"
       {| b_name := name (formData st); b_email := email (formData st);
          b_phone := phone (formData st); b_payment := payment (formData st);
          b_seatBooked := true; b_seatId := id seat |}].
Proof.
  intros Hfilled Hsel Hok Hparsed m st'. subst st' m.
  rewrite (handleConfirmBooking_accepted st seat response ident) by done.
  unfold run, trace, outcome, applyEvents. simpl.
  split_and!; try done.
  - intros i s Hi Hid. exists (book s (name (formData st))).
    by rewrite (bookLocally_lookup _ _ _ _ _ Hi Hid).
  - intros i s Hi Hid. by apply bookLocally_other.
  - unfold bookLocally. by rewrite length_fmap.
  - by exists (newBookedUser (formData st) seat ident dateNow isoNow).
Qed.

(** C6.  A submission that passes the checks and is answered outside 2xx
    alerts the failure message and changes nothing but [loading], which
    it leaves false, as it was when the form could be submitted: seats,
    selection, modal, form, booking list, error and [refreshing] are what
    they were, no seat is marked, no record is appended and no re-fetch is
    scheduled. *)
Theorem handleConfirmBooking_failure (st : State) (seat : Seat)
    (response : Response ConfirmBody) (dateNow : Z) (isoNow : string) :
  filled (formData st) → selectedSeat st = Some seat →
  ok response = false →
  let m := handleConfirmBooking st (Ok response) dateNow isoNow in
  let st' := run m st in
  outcome m = Ok tt ∧
  alerts (trace m) = ["Failed to confirm booking: " +:+ rejection response] ∧
  seats st' = seats st ∧
  selectedSeat st' = Some seat ∧
  showModal st' = showModal st ∧
  formData st' = formData st ∧
  bookedUsers st' = bookedUsers st ∧
  error st' = error st ∧
  refreshing st' = refreshing st ∧
  loading st' = false ∧
  (loading st = false → st' = st) ∧
  timers (trace m) = [] ∧
  Forall (λ ev, match ev with
                | SetSeats _ | AppendBookedUser _ | SetBookedUsers _
                | SetShowModal _ | SetFormData _ | SetSelectedSeat _ => False
                | _ => True
                end) (trace m).
Proof.
  intros Hfilled Hsel Hok m st'. subst st' m.
  rewrite (handleConfirmBooking_rejected st seat response) by done.
  unfold run, trace, outcome, applyEvents. simpl.
  split_and!; try done.
  - intros Hl. destruct st. simpl in *. by subst.
  - repeat constructor.
Qed.

(** ** Busy indicators *)

Lemma fetchTry_flags (showRefresh : bool) (reply : Result (Response json)) :
  raisedFlags (trace (fetchTry showRefresh reply))
  = [if showRefresh then FlagRefreshing else FlagLoading] ∧
  clearedFlags (trace (fetchTry showRefresh reply)) = [].
Proof.
  unfold fetchTry.
  destruct reply as [[[] code txt [data|e]]|e];
    try (by destruct showRefresh).
  assert (data = JNull ∨ data ≠ JNull) as [->|Hnn] by (destruct data; auto).
  - destruct showRefresh; unfold_run; rewrite usersDataOf_null; by simpl.
  - pose proof (usersDataOf_not_null data Hnn) as Husers.
    destruct showRefresh; unfold_run;
      rewrite Husers, filterBooked_recordsOf;
      destruct (acceptedShape data) as [l|]; simpl;
      try destruct (recordsOf l); by simpl.
Qed.

Lemma fetchData_flags (showRefresh : bool) (reply : Result (Response json)) :
  raisedFlags (trace (fetchData showRefresh reply))
  = [if showRefresh then FlagRefreshing else FlagLoading] ∧
  clearedFlags (trace (fetchData showRefresh reply))
  = [FlagLoading; FlagRefreshing].
Proof.
  destruct (fetchTry_flags showRefresh reply) as [Hraised Hcleared].
  rewrite trace_fetchData. unfold raisedFlags, clearedFlags in *.
  rewrite !omap_app.
  destruct (outcome (fetchTry showRefresh reply)) as [[]|e] eqn:Hout.
  - rewrite (trace_try_catch_Ok _ _ _ Hout), Hraised, Hcleared. done.
  - rewrite (trace_try_catch_Raise _ _ _ Hout), !omap_app, Hraised, Hcleared.
    done.
Qed.

Lemma not_filled (f : FormData) :
  ¬ filled f →
  bool_decide (name f = "") || bool_decide (email f = "")
  || bool_decide (phone f = "") = true.
Proof.
  intros Hnf. unfold filled in Hnf.
  destruct (decide (name f = "")) as [->|Hn]; [done|].
  destruct (decide (email f = "")) as [->|He];
    [by rewrite orb_true_r|].
  destruct (decide (phone f = "")) as [->|Hp];
    [by rewrite orb_true_r|]. naive_solver.
Qed.

Lemma trace_emit_bind {A} (ev : Event) (k : M A) :
  trace (emit ev;; k) = ev :: trace k.
Proof. by destruct k. Qed.

(** What a fetch has done when it waits for the service. *)
Lemma fetchData_pending (showRefresh : bool) (reply : Result (Response json)) :
  untilRequest (trace (fetchData showRefresh reply))
  = [if showRefresh then SetRefreshing true else SetLoading true;
     Console LogLevel "Fetching data from backend...";
     HttpGet "http://localhost:3000/get-bookings"].
Proof.
  rewrite trace_fetchData.
  assert (∃ rest, trace (fetchTry showRefresh reply)
                  = [if showRefresh then SetRefreshing true else SetLoading true;
                     Console LogLevel "Fetching data from backend...";
                     HttpGet "http://localhost:3000/get-bookings"] ++ rest)
    as [rest Hrest].
  { unfold fetchTry. destruct showRefresh; rewrite !trace_emit_bind; by eexists. }
  destruct (outcome (fetchTry showRefresh reply)) as [[]|e] eqn:Hout.
  - rewrite (trace_try_catch_Ok _ _ _ Hout), Hrest. by destruct showRefresh.
  - rewrite (trace_try_catch_Raise _ _ _ Hout), Hrest. by destruct showRefresh.
Qed.

Lemma handleConfirmBooking_flags (st : State)
    (reply : Result (Response ConfirmBody)) (dateNow : Z) (isoNow : string) :
  let t := trace (handleConfirmBooking st reply dateNow isoNow) in
  (raisedFlags t = [] ∨ raisedFlags t = [FlagLoading]) ∧
  clearedFlags t = raisedFlags t ∧
  (filled (formData st) → is_Some (selectedSeat st) →
   raisedFlags t = [FlagLoading] ∧
   loading (applyEvents st (untilRequest t)) = true ∧
   refreshing (applyEvents st (untilRequest t)) = refreshing st ∧
   loading (applyEvents st t) = false ∧
   refreshing (applyEvents st t) = refreshing st) ∧
  (¬ filled (formData st) ∨ selectedSeat st = None → raisedFlags t = []).
Proof.
  intros t. subst t. split_and!.
  - unfold handleConfirmBooking.
    destruct (_ || _); [by auto|].
    destruct (selectedSeat st) as [seat|]; [|by auto].
    unfold confirmTry, confirmCatch, confirmFinally, getId.
    destruct reply as [[[] code [errorText|e] [[|ident]|e']]|e''];
      simpl; by auto.
  - unfold handleConfirmBooking.
    destruct (_ || _); [by auto|].
    destruct (selectedSeat st) as [seat|]; [|by auto].
    unfold confirmTry, confirmCatch, confirmFinally, getId.
    destruct reply as [[[] code [errorText|e] [[|ident]|e']]|e''];
      simpl; by auto.
  - intros Hfilled [seat Hsel].
    rewrite (handleConfirmBooking_valid st seat reply dateNow isoNow Hfilled Hsel).
    unfold confirmTry, confirmCatch, confirmFinally, getId.
    destruct reply as [[[] code [errorText|e] [[|ident]|e']]|e''];
      by unfold_run.
  - intros [Hnf| Hnone]; unfold handleConfirmBooking.
    + by rewrite (not_filled _ Hnf).
    + rewrite Hnone. by destruct (_ || _).
Qed.

(** C2, as amended.  The submission has no busy indicator of its own.
    [handleConfirmBooking] raises no flag when a check fails (a field is
    empty or no seat is selected); when the checks pass it raises
    [loading], which is true while the request is pending, and clears it
    on completion, and it leaves [refreshing] alone.  [loading] is the
    flag that [fetchData] raises on a fetch that is not a manual refresh,
    and that every [fetchData] clears on completion together with
    [refreshing].  Only [refreshing] belongs to the fetch cycle alone. *)
Theorem busy_flag_shared (st : State) (reply : Result (Response ConfirmBody))
    (dateNow : Z) (isoNow : string) (showRefresh : bool)
    (fetched : Result (Response json)) :
  let submit := trace (handleConfirmBooking st reply dateNow isoNow) in
  let fetch := trace (fetchData showRefresh fetched) in
  (raisedFlags submit = [] ∨ raisedFlags submit = [FlagLoading]) ∧
  clearedFlags submit = raisedFlags submit ∧
  raisedFlags fetch = [if showRefresh then FlagRefreshing else FlagLoading] ∧
  clearedFlags fetch = [FlagLoading; FlagRefreshing] ∧
  (filled (formData st) → is_Some (selectedSeat st) →
   raisedFlags submit = [FlagLoading] ∧
   clearedFlags submit = [FlagLoading] ∧
   loading (applyEvents st (untilRequest submit)) = true ∧
   refreshing (applyEvents st (untilRequest submit)) = refreshing st ∧
   loading (applyEvents st submit) = false ∧
   refreshing (applyEvents st submit) = refreshing st) ∧
  (¬ filled (formData st) ∨ selectedSeat st = None →
   raisedFlags submit = [] ∧ clearedFlags submit = []) ∧
  loading (applyEvents st (untilRequest fetch))
  = (if showRefresh then loading st else true) ∧
  refreshing (applyEvents st (untilRequest fetch))
  = (if showRefresh then true else refreshing st) ∧
  loading (applyEvents st fetch) = false ∧
  refreshing (applyEvents st fetch) = false.
Proof.
  intros submit fetch.
  destruct (handleConfirmBooking_flags st reply dateNow isoNow)
    as (H1 & H2 & Hvalid & Hinvalid).
  destruct (fetchData_flags showRefresh fetched) as [H3 H4].
  split_and!; try done.
  - intros Hfilled Hsel.
    destruct (Hvalid Hfilled Hsel) as (Hraised & Hpending & Hr1 & Hdone & Hr2).
    split_and!; try done. subst submit. by rewrite H2.
  - intros Hcheck. subst submit. rewrite H2. by rewrite (Hinvalid Hcheck).
  - subst fetch. rewrite fetchData_pending. by destruct showRefresh.
  - subst fetch. rewrite fetchData_pending. by destruct showRefresh.
  - subst fetch. rewrite trace_fetchData, applyEvents_app. done.
  - subst fetch. rewrite trace_fetchData, applyEvents_app. done.
Qed.

(** ** The properties on the scenarios *)

#[local] Transparent generateAllSeats markBookedSeats pretty usersDataOf.

(** In a sequence with unique ids every seat is the first with its id. *)
Lemma firstWithId_NoDup (l : list Seat) (n : nat) (s : Seat) :
  NoDup (id <$> l) → l !! n = Some s → firstWithId l n s (id s).
Proof.
  intros Hnd Hn. split_and!; [done..|]. intros m s' Hm Hlt Heq.
  assert (m = n); [|lia].
  eapply NoDup_lookup; [exact Hnd| |].
  - rewrite list_lookup_fmap, Hm. done.
  - rewrite list_lookup_fmap, Hn. simpl. by rewrite Heq.
Qed.

Lemma markBookedSeats_reconciles_witness :
  (∃ s', markBookedSeats twoSeats fourRecords !! 1%nat = Some s' ∧
         status s' = booked ∧ selectedBy s' = Some "Bob") ∧
  markBookedSeats twoSeats fourRecords
  = markBookedSeats twoSeats
      [record "Alice" true (Some 5); record "Bob" true (Some 5);
       record "Dave" true (Some 99)].
Proof.
  destruct (markBookedSeats_reconciles twoSeats fourRecords) as (_ & Hlast & Hign).
  split.
  - destruct (Hlast [record "Alice" true (Some 5)] (record "Bob" true (Some 5))
                [record "Carol" false (Some 4); record "Dave" true (Some 99)]
                5 1%nat (newSeat 5)) as (s' & Hs' & Hst & Hby & _).
    + reflexivity.
    + reflexivity.
    + reflexivity.
    + apply (firstWithId_NoDup twoSeats 1 (newSeat 5)); [|reflexivity].
      exact (NoDup_seqZ 4 2).
    + repeat constructor.
    + by exists s'.
  - apply (Hign [record "Alice" true (Some 5); record "Bob" true (Some 5)]
             (record "Carol" false (Some 4)) [record "Dave" true (Some 99)]).
    + reflexivity.
    + left. reflexivity.
Defined.

Lemma markBookedSeats_frame_witness :
  Heap.seatsOf twoSeatStore 3%positive = Some twoSeats ∧
  ∃ σ' updatedSeats,
    Heap.markBookedSeats twoSeatStore 3%positive fourRecords
    = Some (σ', updatedSeats) ∧
    Heap.seatsOf σ' 3%positive = Some twoSeats ∧
    Heap.seatsOf σ' updatedSeats = Some (markBookedSeats twoSeats fourRecords).
Proof.
  assert (Heap.seatsOf twoSeatStore 3%positive = Some twoSeats) as Hden
    by (by vm_compute).
  split; [exact Hden|].
  destruct (markBookedSeats_frame twoSeatStore 3%positive twoSeats fourRecords Hden)
    as (σ' & updatedSeats & Hrun & _ & _ & Hin & Hout & _).
  by exists σ', updatedSeats.
Defined.

Lemma fetchData_failure_and_release_witness :
  fetchFailed (Raise (mkExn "Failed to fetch")) ∧
  error (run (fetchData false (Raise (mkExn "Failed to fetch"))) initialState)
  = Some "Failed to load seat data. Using demo data instead." ∧
  banner (run (fetchData false (Raise (mkExn "Failed to fetch"))) initialState)
  = Some "Failed to load seat data. Using demo data instead." ∧
  bookedUsers (run (fetchData false (Raise (mkExn "Failed to fetch"))) initialState)
  = [] ∧
  loading (run (fetchData false (Raise (mkExn "Failed to fetch"))) initialState)
  = false.
Proof.
  destruct (fetchData_failure_and_release false
              (Raise (mkExn "Failed to fetch")) initialState)
    as [(_ & Hloading & _) Hfailed].
  split; [exact I|].
  destruct (Hfailed I) as (Herror & Hbanner & _ & _ & Hlist & _).
  by split_and!.
Defined.

Lemma fetchData_unexpected_shape_witness :
  fetchFailed (Raise (mkExn "Failed to fetch")) ∧
  acceptedShape (JObj [("bookings", JArr [])]) = None ∧
  error (run (fetchData false (replyWith (JObj [("bookings", JArr [])])))
             initialState) = None ∧
  error (run (fetchData false (Raise (mkExn "Failed to fetch"))) initialState)
  = Some "Failed to load seat data. Using demo data instead." ∧
  banner (run (fetchData false (replyWith (JObj [("bookings", JArr [])])))
              initialState) = None ∧
  banner (run (fetchData false (Raise (mkExn "Failed to fetch"))) initialState)
  = Some "Failed to load seat data. Using demo data instead.".
Proof.
  destruct (fetchData_unexpected_shape false
              (mkResponse true 200 (Ok "") (Ok (JObj [("bookings", JArr [])])))
              (JObj [("bookings", JArr [])])
              (Raise (mkExn "Failed to fetch")) initialState)
    as (_ & _ & _ & _ & Hnone & _ & Herror & Hhidden & Hbanner).
  - reflexivity.
  - reflexivity.
  - discriminate.
  - reflexivity.
  - exact I.
  - by split_and!.
Defined.

Lemma handleConfirmBooking_success_witness :
  filled aliceForm ∧
  let st' := run (handleConfirmBooking aliceState
                    (replyWith (ConfirmData (Some "65f0c1"))) 1700000000000
                    "2023-11-14T22:13:20.000Z") aliceState in
  (∃ s', seats st' !! 5%nat = Some s' ∧ status s' = booked ∧
         selectedBy s' = Some "Alice") ∧
  showModal st' = false ∧
  timers (trace (handleConfirmBooking aliceState
                   (replyWith (ConfirmData (Some "65f0c1"))) 1700000000000
                   "2023-11-14T22:13:20.000Z"))
  = [SetTimeout (CallFetchData false) 500] ∧
  alerts (trace (handleConfirmBooking aliceState
                   (replyWith (ConfirmData (Some "65f0c1"))) 1700000000000
                   "2023-11-14T22:13:20.000Z"))
  = ["ðŸŽ‰ Ticket booked successfully for Alice! Seat: A6"].
Proof.
  assert (filled aliceForm) as Hfilled by (by split_and!).
  split; [exact Hfilled|].
  destruct (handleConfirmBooking_success aliceState (newSeat 5)
              (mkResponse true 200 (Ok "") (Ok (ConfirmData (Some "65f0c1"))))
              (Some "65f0c1") 1700000000000 "2023-11-14T22:13:20.000Z"
              Hfilled eq_refl eq_refl eq_refl)
    as (_ & Hbooked & _ & _ & _ & Hmodal & _ & _ & _ & Halert & Htimer & _).
  split_and!; [|exact Hmodal|exact Htimer|exact Halert].
  destruct (Hbooked 5%nat (newSeat 5)) as (s' & Hs' & Hst & Hby & _).
  - by vm_compute.
  - reflexivity.
  - by exists s'.
Defined.

Lemma handleConfirmBooking_failure_witness :
  filled aliceForm ∧
  run (handleConfirmBooking aliceState (rejected 409 "Seat already booked") 0 "")
      aliceState = aliceState ∧
  alerts (trace (handleConfirmBooking aliceState
                   (rejected 409 "Seat already booked") 0 ""))
  = ["Failed to confirm booking: Failed to confirm booking: Seat already booked"].
Proof.
  assert (filled aliceForm) as Hfilled by (by split_and!).
  split; [exact Hfilled|].
  destruct (handleConfirmBooking_failure aliceState (newSeat 5)
              (mkResponse false 409 (Ok "Seat already booked")
                 (Raise (mkExn "Unexpected token"))) 0 ""
              Hfilled eq_refl eq_refl)
    as (_ & Halert & _ & _ & _ & _ & _ & _ & _ & _ & Hsame & _).
  split; [exact (Hsame eq_refl)|exact Halert].
Defined.

Lemma busy_flag_shared_witness :
  filled (formData aliceState) ∧ is_Some (selectedSeat aliceState) ∧
  raisedFlags (trace (handleConfirmBooking aliceState
                        (replyWith (ConfirmData None)) 0 ""))
  = [FlagLoading] ∧
  raisedFlags (trace (fetchData false (replyWith (JArr [])))) = [FlagLoading] ∧
  loading (applyEvents aliceState
             (untilRequest (trace (handleConfirmBooking aliceState
                                     (replyWith (ConfirmData None)) 0 ""))))
  = true ∧
  loading (applyEvents aliceState
             (trace (handleConfirmBooking aliceState
                       (replyWith (ConfirmData None)) 0 "")))
  = false.
Proof.
  assert (filled (formData aliceState)) as Hfilled by (by split_and!).
  assert (is_Some (selectedSeat aliceState)) as Hsel by (by eexists).
  destruct (busy_flag_shared aliceState (replyWith (ConfirmData None)) 0 ""
              false (replyWith (JArr [])))
    as (_ & _ & Hfetch & _ & Hvalid & _).
  destruct (Hvalid Hfilled Hsel) as (Hraised & _ & Hpending & _ & Hdone & _).
  by split_and!.
Defined.

(** C2 fails as stated.  The flag that a submission raises is [loading],
    the flag that a fetch raises unless it is a manual refresh, and that
    every fetch clears.  Alice starts a manual refresh ([refreshing] is
    true, [loading] false, the form stays enabled) and submits while the
    refresh is in flight ([loading] becomes true); the reply to the refresh
    arrives first and the refresh leaves [loading] false while her
    submission is still pending. *)
Lemma busy_flag_not_independent :
  let refresh := trace (handleRefresh (replyWith (JArr []))) in
  let refreshing_state := applyEvents aliceState (untilRequest refresh) in
  let submit := trace (handleConfirmBooking refreshing_state
                         (replyWith (ConfirmData None)) 0 "") in
  let pending := applyEvents refreshing_state (untilRequest submit) in
  let refreshed := applyEvents pending (afterRequest refresh) in
  raisedFlags submit = [FlagLoading] ∧
  raisedFlags (trace (fetchData false (replyWith (JArr [])))) = [FlagLoading] ∧
  clearedFlags refresh = [FlagLoading; FlagRefreshing] ∧
  ¬ independentFlags submit (trace (fetchData false (replyWith (JArr [])))) ∧
  ¬ independentFlags submit refresh ∧
  loading refreshing_state = false ∧
  loading pending = true ∧
  loading refreshed = false.
Proof.
  cbv zeta. split_and!; try (by vm_compute).
  - intros Hind. destruct (Hind FlagLoading) as [Hraised _].
    + vm_compute. left.
    + apply Hraised. vm_compute. left.
  - intros Hind. destruct (Hind FlagLoading) as [_ Hcleared].
    + vm_compute. left.
    + apply Hcleared. vm_compute. left.
Qed.

(** C7 fails as stated.  After a reply of an unexpected shape (an object
    with neither [data] nor [users]) the error state is empty; after a
    transport failure it holds the banner. *)
Lemma unexpected_shape_shows_no_banner :
  let malformed := run (fetchData false (replyWith (JObj []))) initialState in
  let failed := run (fetchData false (Raise (mkExn "Failed to fetch")))
                    initialState in
  error malformed = None ∧
  error failed = Some "Failed to load seat data. Using demo data instead." ∧
  error malformed ≠ error failed ∧
  banner malformed = None ∧
  banner failed = Some "Failed to load seat data. Using demo data instead.".
Proof. cbv zeta. split_and!; by vm_compute. Qed.

(** * Further properties of the component *)

#[local] Opaque generateAllSeats pretty.

(** ** Reconciliation *)

Lemma markBookedSeats_cons (l : list Seat) (user : BookedUser) users :
  markBookedSeats l (user :: users) = markBookedSeats (markUser l user) users.
Proof. done. Qed.

Lemma markUser_unconfirmed (l : list Seat) (user : BookedUser) :
  seatBooked user = false → markUser l user = l.
Proof. intros Hb. apply markUser_ignored. by left. Qed.

(** X1.  [fetchData] keeps the confirmed records only before it
    reconciles, and [markBookedSeats] tests [seatBooked] again: the second
    test decides alone.  Reconciling with the confirmed records of a
    collection is reconciling with the collection. *)
Theorem markBookedSeats_prefilter (allSeats : list Seat) (users : list BookedUser) :
  markBookedSeats allSeats (List.filter (λ user, seatBooked user) users)
  = markBookedSeats allSeats users.
Proof.
  revert allSeats. induction users as [|user users IH]; intros allSeats; [done|].
  simpl List.filter. destruct (seatBooked user) eqn:Hb.
  - rewrite !markBookedSeats_cons. apply IH.
  - rewrite markBookedSeats_cons, markUser_unconfirmed by done. apply IH.
Qed.

(** Two records that hit one position are confirmed for one seat id. *)
Lemma hits_same_seat (l : list Seat) (n : nat) (u1 u2 : BookedUser) :
  hits l n u1 = true → hits l n u2 = true →
  ∃ k, confirmedFor k u1 = true ∧ confirmedFor k u2 = true.
Proof.
  intros (k & s & Hb & Hk & Hfirst)%hits_firstWithId H2.
  rewrite (hits_confirmedFor _ _ _ _ _ Hfirst) in H2.
  exists k. split; [|done]. unfold confirmedFor.
  rewrite Hb, Hk. by rewrite bool_decide_eq_true_2.
Qed.

(** X2.  The order of the records matters only among confirmed records
    for one seat: when any two confirmed records of the collection for
    one seat id carry one name (as when the service keeps at most one
    booking per seat), every reordering of the collection reconciles to
    the same seats. *)
Theorem markBookedSeats_order (allSeats : list Seat) (users users' : list BookedUser) :
  users ≡ₚ users' →
  (∀ u1 u2 k, u1 ∈ users → u2 ∈ users →
     confirmedFor k u1 = true → confirmedFor k u2 = true →
     u_name u1 = u_name u2) →
  markBookedSeats allSeats users = markBookedSeats allSeats users'.
Proof.
  intros Hperm Hone. apply list_eq. intros n.
  rewrite !markBookedSeats_lookup.
  destruct (allSeats !! n) as [s|]; simpl; [|done]. f_equal.
  destruct (winner allSeats n users) as [w|] eqn:Hw.
  - apply winner_Some in Hw as [Hin Hhit].
    destruct (winner_is_Some allSeats n users' w) as [w' Hw'];
      [by rewrite <-Hperm|done|].
    rewrite Hw'. apply winner_Some in Hw' as [Hin' Hhit'].
    destruct (hits_same_seat _ _ _ _ Hhit Hhit') as (k & Hk & Hk').
    simpl. f_equal. apply (Hone w w' k); [done|by rewrite Hperm|done..].
  - destruct (winner allSeats n users') as [w'|] eqn:Hw'; [|done].
    apply winner_Some in Hw' as [Hin' Hhit'].
    destruct (winner_is_Some allSeats n users w') as [w Hw2];
      [by rewrite Hperm|done|]. congruence.
Qed.

Lemma filter_insert_length {A} (p : A → bool) (l : list A) (m : nat) (y : A) :
  (length (List.filter p (<[m := y]> l)) ≤ S (length (List.filter p l)))%nat.
Proof.
  revert m. induction l as [|x l IH]; intros m; [simpl; lia|].
  destruct m as [|m]; simpl.
  - destruct (p y), (p x); simpl; lia.
  - specialize (IH m). destruct (p x); simpl; lia.
Qed.

Lemma markUser_booked_count (l : list Seat) (user : BookedUser) :
  (length (bookedSeats (markUser l user))
   ≤ length (bookedSeats l) + (if seatBooked user then 1 else 0))%nat.
Proof.
  unfold markUser. destruct (seatBooked user); [|lia].
  destruct (seatId user) as [k|]; [|lia].
  case_bool_decide; [|lia].
  destruct (l !! _); [|lia].
  unfold bookedSeats.
  pose proof (filter_insert_length (λ seat, bool_decide (status seat = booked))
                l (Z.to_nat (findIndex (λ seat, bool_decide (id seat = k)) l))
                (book s (u_name user))). lia.
Qed.

Lemma bookedSeats_monotone (l l' : list Seat) :
  Forall2 (λ s s', status s = booked → status s' = booked) l l' →
  (length (bookedSeats l) ≤ length (bookedSeats l'))%nat.
Proof.
  induction 1 as [|s s' l l' Hs _ IH]; [done|]. unfold bookedSeats in *. simpl.
  destruct (status s) eqn:Hst.
  - rewrite bool_decide_eq_false_2 by done. case_bool_decide; simpl; lia.
  - rewrite bool_decide_eq_true_2 by done.
    rewrite bool_decide_eq_true_2 by auto. simpl. lia.
Qed.

Lemma markBookedSeats_booked_bound (l : list Seat) (users : list BookedUser) :
  (length (bookedSeats (markBookedSeats l users))
   ≤ length (bookedSeats l)
     + length (List.filter (λ user, seatBooked user) users))%nat.
Proof.
  revert l. induction users as [|user users IH]; intros l; [simpl; lia|].
  rewrite markBookedSeats_cons.
  pose proof (markUser_booked_count l user) as Hone.
  specialize (IH (markUser l user)).
  simpl List.filter. destruct (seatBooked user); simpl; lia.
Qed.

(** X3.  Reconciliation books and never frees: a seat that is booked
    stays booked, a seat that comes out available is the seat that went
    in, and the number of booked seats grows by at most the number of
    confirmed records. *)
Theorem markBookedSeats_never_frees (allSeats : list Seat) (users : list BookedUser) :
  (∀ n s, allSeats !! n = Some s →
     ∃ s', markBookedSeats allSeats users !! n = Some s' ∧
           (status s = booked → status s' = booked) ∧
           (status s' = available → s' = s)) ∧
  (length (bookedSeats allSeats)
   ≤ length (bookedSeats (markBookedSeats allSeats users)))%nat ∧
  (length (bookedSeats (markBookedSeats allSeats users))
   ≤ length (bookedSeats allSeats)
     + length (List.filter (λ user, seatBooked user) users))%nat.
Proof.
  assert (∀ n s, allSeats !! n = Some s →
     ∃ s', markBookedSeats allSeats users !! n = Some s' ∧
           (status s = booked → status s' = booked) ∧
           (status s' = available → s' = s)) as Hpoint.
  { intros n s Hn. rewrite markBookedSeats_lookup, Hn. simpl.
    eexists. split; [done|]. by destruct (winner allSeats n users). }
  split_and!; [done| |].
  - apply bookedSeats_monotone. apply Forall2_same_length_lookup.
    split; [by rewrite markBookedSeats_length|].
    intros n s s' Hn Hn' Hst.
    destruct (Hpoint n s Hn) as (s2 & Hs2 & Hkeep & _).
    assert (s2 = s') as -> by congruence. auto.
  - apply markBookedSeats_booked_bound.
Qed.

(** ** The optimistic update against reconciliation *)

(** On seats with unique ids, marking the seats with the id of [seat] is
    what the callback of [markBookedSeats] does for a confirmed record of
    that seat. *)
Lemma bookLocally_markUser (l : list Seat) (seat : Seat) (user : BookedUser) :
  NoDup (id <$> l) →
  seatBooked user = true → seatId user = Some (id seat) →
  bookLocally seat (u_name user) l = markUser l user.
Proof.
  intros Hnd Hb Hk. apply list_eq. intros n.
  rewrite markUser_lookup. unfold bookLocally. rewrite list_lookup_fmap.
  destruct (l !! n) as [s|] eqn:Hn; simpl; [|done]. f_equal.
  pose proof (firstWithId_NoDup l n s Hnd Hn) as Hfirst.
  rewrite (hits_confirmedFor _ _ _ _ _ Hfirst). unfold confirmedFor.
  rewrite Hb, Hk. simpl.
  destruct (decide (id s = id seat)) as [Heq|Hne].
  - rewrite !bool_decide_eq_true_2; [done|congruence|done].
  - rewrite !bool_decide_eq_false_2; [done|congruence|done].
Qed.

Lemma generateAllSeats_ids : id <$> generateAllSeats = seqZ 0 80.
Proof.
  rewrite generateAllSeats_seqZ, <-list_fmap_compose.
  rewrite <-(list_fmap_id (seqZ 0 80)) at 2. done.
Qed.

Lemma generateAllSeats_NoDup : NoDup (id <$> generateAllSeats).
Proof. rewrite generateAllSeats_ids. apply NoDup_seqZ. Qed.


(** ** Every fetch cycle *)

#[local] Opaque usersDataOf markBookedSeats.

(** Whatever the reply, a fetch cycle ends in the fallback state or in
    the state of some list of records; which one does not depend on the
    state it started from. *)
Lemma fetchData_run (showRefresh : bool) (reply : Result (Response json)) :
  (∀ st, run (fetchData showRefresh reply) st = fellBack st) ∨
  (∃ l, ∀ st, run (fetchData showRefresh reply) st = fetched st l).
Proof.
  pose proof (fetchTry_outcome showRefresh reply) as Hout.
  assert (∀ e, outcome (fetchTry showRefresh reply) = Raise e →
               ∀ st, run (fetchData showRefresh reply) st = fellBack st) as Hthrown.
  { intros e He st. by destruct (fetchData_thrown showRefresh reply st e He). }
  destruct reply as [response|e]; [|by left; eapply Hthrown].
  destruct (ok response) eqn:Hok; [|by left; eapply Hthrown].
  destruct (parsed response) as [data|e] eqn:Hparsed; [|by left; eapply Hthrown].
  assert (data = JNull ∨ data ≠ JNull) as [->|Hnn] by (destruct data; auto).
  { by left; eapply Hthrown. }
  destruct (recordsOf (default [] (acceptedShape data))) as [records|] eqn:Hrecords.
  - right. exists records. intros st.
    by destruct (fetchData_parsed showRefresh response data records st
                   Hok Hparsed Hnn Hrecords) as (_ & -> & _).
  - left.
    apply (Hthrown (mkExn "Cannot read properties of null (reading 'seatBooked')")).
    by destruct data.
Qed.

Lemma markBookedSeats_layout (l : list Seat) (users : list BookedUser) :
  layout (markBookedSeats l users) = layout l.
Proof.
  apply list_eq. intros n. unfold layout.
  rewrite !list_lookup_fmap, markBookedSeats_lookup.
  destruct (l !! n) as [s|]; simpl; [|done].
  by destruct (overlay_fields (winner l n users) s) as (-> & -> & ->).
Qed.

Lemma seat_counts (l : list Seat) :
  (length (bookedSeats l) + length (availableSeats l) = length l)%nat.
Proof.
  unfold bookedSeats, availableSeats.
  induction l as [|s l IH]; [done|]. simpl.
  destruct (status s); simpl; lia.
Qed.

Lemma bookedSeats_generateAllSeats : bookedSeats generateAllSeats = [].
Proof.
  unfold bookedSeats.
  induction generateAllSeats_available as [|s l [Hs _] _ IH]; [done|].
  simpl. by rewrite Hs.
Qed.

(** On the generated seats, a seat comes out booked exactly when a
    confirmed record carries its id, and then under the name of such a
    record. *)
Lemma markBookedSeats_generated (users : list BookedUser) (n : nat) (s : Seat) :
  markBookedSeats generateAllSeats users !! n = Some s →
  (status s = booked ↔ ∃ u, u ∈ users ∧ confirmedFor (id s) u = true) ∧
  (status s = booked →
   ∃ u, u ∈ users ∧ confirmedFor (id s) u = true ∧ selectedBy s = Some (u_name u)).
Proof.
  rewrite markBookedSeats_lookup.
  destruct (generateAllSeats !! n) as [g|] eqn:Hg; simpl; [|done].
  intros [= <-].
  pose proof (firstWithId_NoDup _ n g generateAllSeats_NoDup Hg) as Hfirst.
  assert (status g = available) as Havail.
  { pose proof generateAllSeats_available as Hall.
    rewrite Forall_forall in Hall. apply Hall. by eapply list_elem_of_lookup_2. }
  destruct (overlay_fields (winner generateAllSeats n users) g) as (-> & _).
  destruct (winner generateAllSeats n users) as [w|] eqn:Hw; simpl.
  - apply winner_Some in Hw as [Hin Hhit].
    rewrite (hits_confirmedFor _ _ _ _ _ Hfirst) in Hhit. naive_solver.
  - split; [|by rewrite Havail]. split; [by rewrite Havail|].
    intros (u & Hin & Hu). exfalso.
    destruct (winner_is_Some generateAllSeats n users u) as [w Hw2];
      [done| |congruence].
    by rewrite (hits_confirmedFor _ _ _ _ _ Hfirst).
Qed.

(** X5.  Seats are regenerated on every fetch cycle, never patched: the
    seats, the booking list, the error and the indicators after a cycle
    are the same from whatever state the cycle starts, and the selection,
    the modal and the form are those of the start.  In particular a cycle
    keeps nothing of an earlier cycle or of an optimistic update. *)
Theorem fetchData_regenerates (showRefresh : bool)
    (reply : Result (Response json)) (st other : State) :
  run (fetchData showRefresh reply) st =
  {| seats := seats (run (fetchData showRefresh reply) other);
     selectedSeat := selectedSeat st;
     showModal := showModal st;
     loading := false;
     refreshing := false;
     error := error (run (fetchData showRefresh reply) other);
     bookedUsers := bookedUsers (run (fetchData showRefresh reply) other);
     formData := formData st |}.
Proof.
  destruct (fetchData_run showRefresh reply) as [Hfell|[l Hfetched]].
  - by rewrite !Hfell.
  - by rewrite !Hfetched.
Qed.

(** X6.  After every fetch cycle, whatever the reply: there are 80 seats
    with the addresses of the generated seats; the booking list holds
    confirmed records only; the seats are the reconciliation of the
    generated seats with the booking list; a seat is booked exactly when
    the booking list has a record with its id, and then it carries the
    name of such a record; the booked and available counts add up to 80
    and the booked count is at most the number of bookings. *)
Theorem fetchData_consistent (showRefresh : bool)
    (reply : Result (Response json)) (st : State) :
  let st' := run (fetchData showRefresh reply) st in
  layout (seats st') = layout generateAllSeats ∧
  length (seats st') = 80%nat ∧
  Forall (λ u, seatBooked u = true) (bookedUsers st') ∧
  seats st' = markBookedSeats generateAllSeats (bookedUsers st') ∧
  (∀ n s, seats st' !! n = Some s →
     (status s = booked ↔ ∃ u, u ∈ bookedUsers st' ∧ seatId u = Some (id s)) ∧
     (status s = booked →
      ∃ u, u ∈ bookedUsers st' ∧ seatId u = Some (id s) ∧
           selectedBy s = Some (u_name u))) ∧
  (length (bookedSeats (seats st')) + length (availableSeats (seats st')) = 80)%nat ∧
  (length (bookedSeats (seats st')) ≤ length (bookedUsers st'))%nat.
Proof.
  intros st'.
  assert (∃ l, Forall (λ u, seatBooked u = true) l ∧ bookedUsers st' = l ∧
               seats st' = markBookedSeats generateAllSeats l) as (l & Hl & Hb & Hs).
  { subst st'. destruct (fetchData_run showRefresh reply) as [Hfell|[l Hfetched]].
    - exists []. rewrite Hfell. simpl. by rewrite markBookedSeats_nil.
    - exists (List.filter (λ user, seatBooked user) l). rewrite Hfetched. simpl.
      split_and!; [|done..]. apply Forall_forall. intros u Hu.
      apply list_elem_of_In, List.filter_In in Hu. by destruct Hu. }
  assert (∀ k u, u ∈ l → (confirmedFor k u = true ↔ seatId u = Some k)) as Hconf.
  { intros k u Hu. rewrite Forall_forall in Hl. unfold confirmedFor.
    rewrite (Hl u Hu). simpl. apply bool_decide_eq_true. }
  assert (length (seats st') = 80%nat) as Hlen.
  { rewrite Hs, markBookedSeats_length, generateAllSeats_seqZ.
    by rewrite length_fmap, length_seqZ. }
  rewrite Hb, Hs. split_and!; try done.
  - apply markBookedSeats_layout.
  - by rewrite <-Hs.
  - intros n s Hn. destruct (markBookedSeats_generated l n s Hn) as [Hiff Hname].
    split.
    + rewrite Hiff. split; intros (u & Hu & Hk); exists u;
        (split; [done|by apply (Hconf (id s) u Hu)]).
    + intros Hst. destruct (Hname Hst) as (u & Hu & Hk & Hby).
      exists u. split_and!; [done| |done]. by apply (Hconf (id s) u Hu).
  - rewrite <-Hs, seat_counts. done.
  - pose proof (markBookedSeats_booked_bound generateAllSeats l) as Hbound.
    rewrite bookedSeats_generateAllSeats in Hbound. simpl in Hbound.
    assert (List.filter (λ user, seatBooked user) l = l) as Hall.
    { clear -Hl. induction Hl as [|u l Hu _ IH]; [done|]. simpl.
      by rewrite Hu, IH. }
    by rewrite Hall in Hbound.
Qed.

(** X7.  A reply with a 2xx status whose body parses to a document other
    than [null] carries a list: that of a bare array, else the array under
    [data], else the array under [users], else the empty list; so an array
    under [data] takes precedence over [users], and a [data] that is not
    an array does not hide the array under [users].  When no element of
    the list is [null] the cycle does not fail: the error is cleared, no
    banner shows and the state is that of the records of the list.  When
    an element is [null] the filter throws on it and the cycle falls back:
    the banner text is set, the seats are the generated seats and the
    booking list is empty. *)
Theorem fetchData_accepts (showRefresh : bool) (response : Response json)
    (data : json) (st : State) :
  ok response = true → parsed response = Ok data → data ≠ JNull →
  let carried :=
    match data with
    | JArr l => l
    | JObj fields =>
        match ownProp "data" fields, ownProp "users" fields with
        | Some (JArr l), _ => l
        | _, Some (JArr l) => l
        | _, _ => []
        end
    | _ => []
    end in
  let st' := run (fetchData showRefresh (Ok response)) st in
  (∀ records, recordsOf carried = Some records →
     st' = fetched st records ∧
     error st' = None ∧ banner st' = None ∧
     bookedUsers st' = List.filter (λ user, seatBooked user) records ∧
     seats st' = markBookedSeats generateAllSeats
                   (List.filter (λ user, seatBooked user) records)) ∧
  (recordsOf carried = None →
     st' = fellBack st ∧
     error st' = Some "Failed to load seat data. Using demo data instead." ∧
     banner st' = Some "Failed to load seat data. Using demo data instead." ∧
     seats st' = generateAllSeats ∧ bookedUsers st' = []).
Proof.
  intros Hok Hparsed Hnn carried st'.
  assert (default [] (acceptedShape data) = carried) as Hcarried.
  { subst carried. destruct data as [|b|n|s|l|fields]; try done. simpl.
    destruct (ownProp "data" fields) as [[|b|n|s|l|fs]|];
      destruct (ownProp "users" fields) as [[|b'|n'|s'|l'|fs']|]; done. }
  split.
  - intros records Hrecords. subst st'.
    destruct (fetchData_parsed showRefresh response data records st
                Hok Hparsed Hnn) as (_ & -> & _); [by rewrite Hcarried|].
    by split_and!.
  - intros Hnull. subst st'.
    pose proof (fetchTry_outcome showRefresh (Ok response)) as Hout.
    simpl in Hout. rewrite Hok, Hparsed, Hcarried, Hnull in Hout.
    assert (outcome (fetchTry showRefresh (Ok response))
            = Raise (mkExn "Cannot read properties of null (reading 'seatBooked')"))
      as Hthrown by (by destruct data).
    destruct (fetchData_thrown showRefresh (Ok response) st _ Hthrown)
      as (-> & _).
    by split_and!.
Qed.

(** ** Every submission *)

(** The run of a submission that passes the checks, reply by reply. *)
Lemma handleConfirmBooking_runs (st : State) (seat : Seat)
    (reply : Result (Response ConfirmBody)) (dateNow : Z) (isoNow : string) :
  filled (formData st) → selectedSeat st = Some seat →
  let m := handleConfirmBooking st reply dateNow isoNow in
  outcome m = Ok tt ∧
  requests (trace m)
  = [HttpPost "http://localhost:3000/confirm-booking"
       (bookingDataOf (formData st) seat)] ∧
  loading (run m st) = false ∧
  (confirmFailed reply →
   run m st = idle st ∧
   alerts (trace m) = ["Failed to confirm booking: " +:+ failureOf reply] ∧
   timers (trace m) = []).
Proof.
  intros Hfilled Hsel m. subst m.
  rewrite (handleConfirmBooking_valid st seat) by done.
  destruct reply as [[[] code [errorText|e] [[|ident]|e']]|e''];
    (split_and!; [reflexivity..|]); simpl;
    try (intros _; by split_and!); intros [H|[? H]]; done.
Qed.

(** X8.  A submission never throws.  It sends a request exactly when
    [name], [email] and [phone] are filled in and a seat is selected, and
    then one request, carrying the form and the id of the selected seat,
    whatever the reply, and it leaves [loading] false.  Otherwise it
    changes nothing and alerts: that fields are missing when one is
    empty, and only when all are filled that no seat is selected. *)
Theorem handleConfirmBooking_checks (st : State)
    (reply : Result (Response ConfirmBody)) (dateNow : Z) (isoNow : string) :
  let m := handleConfirmBooking st reply dateNow isoNow in
  outcome m = Ok tt ∧
  (¬ filled (formData st) → m = ([Alert "Please fill all fields"], Ok tt)) ∧
  (filled (formData st) → selectedSeat st = None →
   m = ([Alert "No seat selected"], Ok tt)) ∧
  (∀ seat, filled (formData st) → selectedSeat st = Some seat →
   requests (trace m)
   = [HttpPost "http://localhost:3000/confirm-booking"
        (bookingDataOf (formData st) seat)] ∧
   loading (run m st) = false).
Proof.
  intros m.
  assert (¬ filled (formData st) → m = ([Alert "Please fill all fields"], Ok tt))
    as Hmissing.
  { intros Hnf%not_filled. subst m. unfold handleConfirmBooking.
    by rewrite Hnf. }
  assert (filled (formData st) → selectedSeat st = None →
          m = ([Alert "No seat selected"], Ok tt)) as Hnoseat.
  { intros (Hn & He & Hp) Hsel. subst m. unfold handleConfirmBooking.
    rewrite Hsel. by rewrite !bool_decide_eq_false_2 by done. }
  split_and!; [|done|done|].
  - destruct (decide (filled (formData st))) as [Hf|Hnf];
      [|by rewrite Hmissing].
    destruct (selectedSeat st) as [seat|] eqn:Hsel; [|by rewrite Hnoseat].
    by destruct (handleConfirmBooking_runs st seat reply dateNow isoNow Hf Hsel).
  - intros seat Hf Hsel.
    by destruct (handleConfirmBooking_runs st seat reply dateNow isoNow Hf Hsel)
      as (_ & ? & ? & _).
Qed.

(** X9.  A submission that fails in any way (the request is rejected, the
    status is outside 2xx, or the body of a 2xx reply is not JSON) changes
    nothing but [loading], which it leaves false; it raises one alert,
    which carries the message of the error, and schedules no re-fetch. *)
Theorem handleConfirmBooking_fails (st : State) (seat : Seat)
    (reply : Result (Response ConfirmBody)) (dateNow : Z) (isoNow : string) :
  filled (formData st) → selectedSeat st = Some seat → confirmFailed reply →
  let m := handleConfirmBooking st reply dateNow isoNow in
  run m st = idle st ∧
  alerts (trace m) = ["Failed to confirm booking: " +:+ failureOf reply] ∧
  timers (trace m) = [] ∧
  (∀ e, reply = Raise e → failureOf reply = message e) ∧
  (∀ response e, reply = Ok response → ok response = true →
     parsed response = Raise e → failureOf reply = message e) ∧
  (∀ response errorText, reply = Ok response → ok response = false →
     text response = Ok errorText →
     failureOf reply = "Failed to confirm booking: " +:+ errorText).
Proof.
  intros Hfilled Hsel Hfailed m. subst m.
  destruct (handleConfirmBooking_runs st seat reply dateNow isoNow Hfilled Hsel)
    as (_ & _ & _ & Hrun).
  destruct (Hrun Hfailed) as (-> & -> & ->).
  split_and!; try done.
  - by intros e ->.
  - intros response e -> Hok Hparsed. simpl. by rewrite Hok, Hparsed.
  - intros response errorText -> Hok Htext. simpl. unfold rejection.
    by rewrite Hok, Htext.
Qed.

(** X10.  A 2xx confirmation whose body is the document [null]: the
    seats with the id of the selected seat are marked under the submitted
    name, then reading [data._id] throws.  The user is alerted of a
    failure while the seat shows as booked; no record is appended, the
    modal, the selection and the form stay, and no re-fetch is
    scheduled. *)
Theorem handleConfirmBooking_null (st : State) (seat : Seat)
    (reply : Result (Response ConfirmBody)) (dateNow : Z) (isoNow : string) :
  filled (formData st) → selectedSeat st = Some seat → nullConfirmation reply →
  let m := handleConfirmBooking st reply dateNow isoNow in
  let st' := run m st in
  seats st' = bookLocally seat (name (formData st)) (seats st) ∧
  bookedUsers st' = bookedUsers st ∧
  showModal st' = showModal st ∧
  selectedSeat st' = Some seat ∧
  formData st' = formData st ∧
  error st' = error st ∧
  loading st' = false ∧
  alerts (trace m)
  = ["Failed to confirm booking: Cannot read properties of null (reading '_id')"] ∧
  timers (trace m) = [].
Proof.
  intros Hfilled Hsel (response & -> & Hok & Hparsed) m st'. subst st' m.
  destruct response as [okb code txt body]. simpl in Hok, Hparsed. subst okb body.
  rewrite (handleConfirmBooking_null_body st seat code txt) by done.
  by split_and!.
Qed.

(** X11.  An accepted submission cannot be repeated: in the state it
    leaves, the form is empty and no seat is selected, so a second
    submission, whatever its reply, sends no request and only alerts that
    fields are missing.  The same holds once the modal was closed. *)
Theorem handleConfirmBooking_once (st : State) (seat : Seat)
    (response : Response ConfirmBody) (ident : option string)
    (dateNow : Z) (isoNow : string)
    (reply' : Result (Response ConfirmBody)) (dateNow' : Z) (isoNow' : string) :
  filled (formData st) → selectedSeat st = Some seat →
  ok response = true → parsed response = Ok (ConfirmData ident) →
  let st' := run (handleConfirmBooking st (Ok response) dateNow isoNow) st in
  handleConfirmBooking st' reply' dateNow' isoNow'
  = ([Alert "Please fill all fields"], Ok tt) ∧
  requests (trace (handleConfirmBooking st' reply' dateNow' isoNow')) = [] ∧
  run (handleConfirmBooking st' reply' dateNow' isoNow') st' = st' ∧
  (loading st = false →
   handleConfirmBooking (run (handleCloseModal st) st) reply' dateNow' isoNow'
   = ([Alert "Please fill all fields"], Ok tt)).
Proof.
  intros Hfilled Hsel Hok Hparsed st'. subst st'.
  rewrite (handleConfirmBooking_accepted st seat response ident) by done.
  split_and!; try done.
  intros Hl. unfold handleCloseModal. by rewrite Hl.
Qed.

(** ** Selection and form *)

(** X12.  A click on a seat that is not available changes nothing and
    opens no modal; it names the occupant in an alert when the seat has a
    non-empty occupant name and is silent otherwise.  A click on an
    available seat selects it and opens the modal, alerts nothing and
    touches nothing else; cancelling then (while nothing is loading)
    clears the selection, the modal, the form and the error, so that a
    click followed by a cancel gives back a state that had no selection, a
    closed modal, an empty form and no error.  Cancelling while [loading]
    is set does nothing: a pending submission cannot be abandoned. *)
Theorem handleSeatClick_cancel (st : State) (seat : Seat) :
  (status seat = booked →
   run (handleSeatClick seat) st = st ∧
   alerts (trace (handleSeatClick seat))
   = match selectedBy seat with
     | Some who =>
         if bool_decide (who ≠ "") then
           ["This seat (" +:+ row seat +:+ pretty (number seat)
            +:+ ") is already booked by " +:+ who]
         else []
     | None => []
     end) ∧
  (status seat = available →
   let st1 := run (handleSeatClick seat) st in
   alerts (trace (handleSeatClick seat)) = [] ∧
   st1 = {| seats := seats st; selectedSeat := Some seat; showModal := true;
            loading := loading st; refreshing := refreshing st;
            error := error st; bookedUsers := bookedUsers st;
            formData := formData st |} ∧
   modalShown st1 = true ∧
   (loading st = false →
    run (handleCloseModal st1) st1
    = {| seats := seats st; selectedSeat := None; showModal := false;
         loading := false; refreshing := refreshing st;
         error := None; bookedUsers := bookedUsers st;
         formData := emptyForm |}) ∧
   (loading st = false → selectedSeat st = None → showModal st = false →
    formData st = emptyForm → error st = None →
    run (handleCloseModal st1) st1 = st) ∧
   (loading st = true →
    handleCloseModal st1 = ([], Ok tt) ∧ run (handleCloseModal st1) st1 = st1)).
Proof.
  split.
  - intros Hst. unfold handleSeatClick. rewrite Hst. simpl.
    destruct (selectedBy seat) as [who|]; [|done].
    by case_bool_decide.
  - intros Hst st1. subst st1. unfold handleSeatClick. rewrite Hst. simpl.
    split_and!; try done.
    + unfold handleCloseModal, run. simpl. by intros ->.
    + unfold handleCloseModal, run. simpl. intros Hl Hsel Hmodal Hform Herr.
      rewrite Hl. simpl. destruct st. simpl in *. by subst.
    + unfold handleCloseModal, run. simpl. by intros ->.
Qed.

Lemma getField_setField (fieldName value : string) (prev : FormData) :
  getField fieldName (setField fieldName value prev) = Some value.
Proof.
  unfold getField, setField.
  repeat case_bool_decide; subst; simpl; try done.
  apply lookup_insert_eq.
Qed.

Lemma getField_setField_ne (other fieldName value : string) (prev : FormData) :
  other ≠ fieldName →
  getField other (setField fieldName value prev) = getField other prev.
Proof.
  intros Hne. unfold getField, setField.
  repeat case_bool_decide; subst; simpl; try done.
  by apply lookup_insert_ne.
Qed.

Lemma setField_twice (fieldName v1 v2 : string) (prev : FormData) :
  setField fieldName v2 (setField fieldName v1 prev) = setField fieldName v2 prev.
Proof.
  unfold setField.
  repeat case_bool_decide; subst; simpl; try done.
  f_equal. apply insert_insert_eq.
Qed.

Lemma setField_commute (f1 v1 f2 v2 : string) (prev : FormData) :
  f1 ≠ f2 →
  setField f1 v1 (setField f2 v2 prev) = setField f2 v2 (setField f1 v1 prev).
Proof.
  intros Hne. unfold setField.
  repeat case_bool_decide; subst; simpl; try done.
  f_equal. by apply insert_insert_ne.
Qed.

(** X13.  A form edit stores the value under the name of the input,
    whatever that name is, and touches nothing but the form: the property
    under that name reads back as the value and the properties under the
    other names are what they were.  A second edit under the same name
    overwrites the first, and edits under different names commute.
    Typing a name, an email and a phone and submitting with a seat
    selected sends a request that carries exactly what was typed, the
    payment method that the form held and the id of the selected seat; a
    value stored under a name that is none of the four inputs is kept in
    the form and does not reach the request. *)
Theorem handleInputChange_request (st : State) (seat : Seat)
    (n e p : string) (reply : Result (Response ConfirmBody))
    (dateNow : Z) (isoNow : string) :
  selectedSeat st = Some seat → n ≠ "" → e ≠ "" → p ≠ "" →
  let typed := handleInputChange "phone" p
                 (handleInputChange "email" e
                    (handleInputChange "name" n st)) in
  (∀ fieldName value,
     let st' := handleInputChange fieldName value st in
     getField fieldName (formData st') = Some value ∧
     (∀ other, other ≠ fieldName →
        getField other (formData st') = getField other (formData st)) ∧
     seats st' = seats st ∧ selectedSeat st' = selectedSeat st ∧
     showModal st' = showModal st ∧ loading st' = loading st ∧
     refreshing st' = refreshing st ∧ error st' = error st ∧
     bookedUsers st' = bookedUsers st) ∧
  (∀ fieldName v1 v2,
     handleInputChange fieldName v2 (handleInputChange fieldName v1 st)
     = handleInputChange fieldName v2 st) ∧
  (∀ f1 v1 f2 v2,
     f1 ≠ f2 →
     handleInputChange f1 v1 (handleInputChange f2 v2 st)
     = handleInputChange f2 v2 (handleInputChange f1 v1 st)) ∧
  formData typed = {| name := n; email := e; phone := p;
                      payment := payment (formData st);
                      others := others (formData st) |} ∧
  seats typed = seats st ∧ selectedSeat typed = Some seat ∧
  showModal typed = showModal st ∧ bookedUsers typed = bookedUsers st ∧
  requests (trace (handleConfirmBooking typed reply dateNow isoNow))
  = [HttpPost "http://localhost:3000/confirm-booking"
       {| b_name := n; b_email := e; b_phone := p;
          b_payment := payment (formData st);
          b_seatBooked := true; b_seatId := id seat |}] ∧
  (∀ fieldName value,
     fieldName ≠ "name" → fieldName ≠ "email" → fieldName ≠ "phone" →
     fieldName ≠ "payment" →
     formData (handleInputChange fieldName value typed)
     = {| name := n; email := e; phone := p;
          payment := payment (formData st);
          others := <[fieldName := value]> (others (formData st)) |} ∧
     requests (trace (handleConfirmBooking
                        (handleInputChange fieldName value typed)
                        reply dateNow isoNow))
     = [HttpPost "http://localhost:3000/confirm-booking"
          {| b_name := n; b_email := e; b_phone := p;
             b_payment := payment (formData st);
             b_seatBooked := true; b_seatId := id seat |}]).
Proof.
  intros Hsel Hn He Hp typed.
  assert (formData typed = {| name := n; email := e; phone := p;
                              payment := payment (formData st);
                              others := others (formData st) |}) as Hform.
  { subst typed. simpl. vm_compute. reflexivity. }
  split_and!; [| | |exact Hform|done|exact Hsel|done|done| |].
  - intros fieldName value st'. subst st'. simpl.
    split_and!; try done.
    + apply getField_setField.
    + intros other Hne. by apply getField_setField_ne.
  - intros fieldName v1 v2. unfold handleInputChange. simpl.
    by rewrite setField_twice.
  - intros f1 v1 f2 v2 Hne. unfold handleInputChange. simpl.
    by rewrite (setField_commute f1 v1 f2 v2).
  - assert (filled (formData typed)) as Hfilled by (by rewrite Hform).
    destruct (handleConfirmBooking_runs typed seat reply dateNow isoNow
                Hfilled Hsel) as (_ & -> & _).
    unfold bookingDataOf. by rewrite Hform.
  - intros fieldName value H1 H2 H3 H4.
    assert (formData (handleInputChange fieldName value typed)
            = {| name := n; email := e; phone := p;
                 payment := payment (formData st);
                 others := <[fieldName := value]> (others (formData st)) |})
      as Hstored.
    { change (formData (handleInputChange fieldName value typed))
        with (setField fieldName value (formData typed)).
      rewrite Hform. unfold setField.
      by rewrite !bool_decide_eq_false_2 by done. }
    split; [exact Hstored|].
    assert (filled (formData (handleInputChange fieldName value typed)))
      as Hfilled by (by rewrite Hstored).
    destruct (handleConfirmBooking_runs
                (handleInputChange fieldName value typed) seat reply dateNow
                isoNow Hfilled Hsel) as (_ & -> & _).
    unfold bookingDataOf. by rewrite Hstored.
Qed.

(** ** What the handlers preserve *)

(** The state after a submission that passes the checks: one of three. *)
Lemma handleConfirmBooking_cases (st : State) (seat : Seat)
    (reply : Result (Response ConfirmBody)) (dateNow : Z) (isoNow : string) :
  filled (formData st) → selectedSeat st = Some seat →
  let st' := run (handleConfirmBooking st reply dateNow isoNow) st in
  (confirmFailed reply ∧ st' = idle st) ∨
  (nullConfirmation reply ∧ st' = interrupted st seat) ∨
  (∃ ident, st' = accepted st seat ident dateNow isoNow).
Proof.
  intros Hfilled Hsel st'. subst st'.
  rewrite (handleConfirmBooking_valid st seat) by done.
  destruct reply as [[[] code txt [[|ident]|e']]|e''].
  - right. left. split; [by eexists|done].
  - right. right. by exists ident.
  - left. split; [right; by eexists|done].
  - left. split; [by left|]. by destruct txt.
  - left. split; [by left|]. by destruct txt.
  - left. split; [by left|]. by destruct txt.
  - left. split; [exact I|reflexivity].
Qed.

Lemma bookLocally_layout (seat : Seat) (n : string) (l : list Seat) :
  layout (bookLocally seat n l) = layout l.
Proof.
  unfold layout, bookLocally. rewrite <-list_fmap_compose.
  apply list_fmap_ext. intros i s _. simpl. by case_bool_decide.
Qed.

Lemma layout_nil (l : list Seat) : layout l = [] → l = [].
Proof. unfold layout. apply fmap_nil_inv. Qed.

Lemma bookLocally_nil (seat : Seat) (n : string) (l : list Seat) :
  bookLocally seat n l = [] → l = [].
Proof. unfold bookLocally. apply fmap_nil_inv. Qed.

Lemma modalShown_selected (st : State) :
  modalShown st = true → showModal st = true ∧ ∃ seat, selectedSeat st = Some seat.
Proof.
  unfold modalShown. intros [Hm Hs%bool_decide_eq_true]%andb_true_iff.
  split; [done|]. destruct Hs as [seat Hs]. by exists seat.
Qed.

Lemma wellFormed_fetch (showRefresh : bool) (reply : Result (Response json))
    (st : State) :
  wellFormed st → wellFormed (run (fetchData showRefresh reply) st).
Proof.
  intros (Hmodal & Hlayout & Hsel & Hconf & Hrefr & Hload).
  assert (generateAllSeats ≠ []) as Hne.
  { intros Heq. pose proof generateAllSeats_ids as Hids.
    rewrite Heq in Hids. discriminate Hids. }
  destruct (fetchData_run showRefresh reply) as [Hfell|[l Hfetched]].
  - rewrite Hfell. unfold wellFormed, fellBack. simpl.
    split_and!; try done; [by right|].
    intros seat Hs. by destruct (Hsel seat Hs).
  - rewrite Hfetched. unfold wellFormed, fetched. simpl.
    split_and!; try done.
    + right. apply markBookedSeats_layout.
    + intros seat Hs. destruct (Hsel seat Hs) as [_ Hin]. split; [|done].
      intros Heq. apply Hne. apply layout_nil.
      by rewrite <-(markBookedSeats_layout _ (List.filter (λ user, seatBooked user) l)), Heq.
    + apply Forall_forall. intros u Hu.
      apply list_elem_of_In, List.filter_In in Hu. by destruct Hu.
Qed.

Lemma wellFormed_step service (st st' : State) :
  wellFormed st → step service st st' → wellFormed st'.
Proof.
  intros Hwf Hstep. destruct Hstep
    as [showRefresh reply st|seat st Hin Henabled|fieldName value st Hshown
       |st Hshown|reply dateNow isoNow st Hshown Henabled _].
  - by apply wellFormed_fetch.
  - destruct Hwf as (Hmodal & Hlayout & Hsel & Hconf & Hrefr & Hload).
    unfold seatDisabled in Henabled.
    apply orb_false_iff in Henabled as [Hst%bool_decide_eq_false Hl].
    assert (status seat = available) as Havail by (by destruct (status seat)).
    unfold handleSeatClick. rewrite Havail. unfold wellFormed. simpl.
    split_and!; try done.
    + intros seat' [= <-].
      destruct Hlayout as [Hnil|Hlay].
      { rewrite Hnil in Hin. by apply not_elem_of_nil in Hin. }
      split; [intros Hnil; rewrite Hnil in Hin; by apply not_elem_of_nil in Hin|].
      rewrite <-Hlay. unfold layout.
      by apply (list_elem_of_fmap_2 (λ s, (id s, row s, number s))).
    + congruence.
  - destruct Hwf as (Hmodal & Hlayout & Hsel & Hconf & Hrefr & Hload).
    unfold wellFormed, handleInputChange. simpl. split_and!; try done.
    intros Hl. specialize (Hload Hl). subst st. done.
  - destruct Hwf as (Hmodal & Hlayout & Hsel & Hconf & Hrefr & Hload).
    unfold handleCloseModal. destruct (loading st) eqn:Hl.
    + specialize (Hload eq_refl). subst st. done.
    + unfold wellFormed. simpl. split_and!; try done. congruence.
  - destruct (modalShown_selected st Hshown) as (Hopen & seat & Hseat).
    unfold modalDisabled in Henabled.
    destruct (decide (filled (formData st))) as [Hfilled|Hnf].
    2:{ apply not_filled in Hnf. unfold handleConfirmBooking.
        by rewrite Hnf. }
    destruct Hwf as (Hmodal & Hlayout & Hsel & Hconf & Hrefr & Hload).
    destruct (Hsel seat Hseat) as [Hne Haddr].
    destruct (handleConfirmBooking_cases st seat reply dateNow isoNow
                Hfilled Hseat) as [[_ ->]|[[_ ->]|[ident ->]]].
    + unfold wellFormed, idle. simpl. by split_and!.
    + unfold wellFormed, interrupted. simpl. split_and!; try done.
      * right. rewrite bookLocally_layout. by destruct Hlayout.
      * intros seat' Hs'. destruct (Hsel seat' Hs') as [_ Hin].
        split; [|done]. by intros Hnil%bookLocally_nil.
    + unfold wellFormed, accepted. simpl. split_and!; try done.
      * right. rewrite bookLocally_layout. by destruct Hlayout.
      * apply Forall_app. split; [done|]. by repeat constructor.
Qed.

Lemma wellFormed_initial : wellFormed initialState.
Proof.
  unfold wellFormed. simpl. split_and!; try done. by left.
Qed.

Lemma reachable_inv service (st : State) : reachable service st → wellFormed st.
Proof.
  induction 1 as [|st st' _ IH Hstep]; [apply wellFormed_initial|].
  by eapply wellFormed_step.
Qed.

(** X14.  In every state that the handlers reach from the first render,
    one handler at a time and whatever the service replies: the modal is
    open exactly when a seat is selected; the seats are none or have the
    80 addresses of the generated seats; a selected seat has the address
    of a generated seat; the booking list holds confirmed records only;
    [refreshing] is false, and [loading] is true in the state of the first
    render only. *)
Theorem reachable_wellFormed service (st : State) :
  reachable service st →
  (showModal st = true ↔ is_Some (selectedSeat st)) ∧
  (seats st = [] ∨
   layout (seats st) = layout generateAllSeats ∧ length (seats st) = 80%nat) ∧
  (∀ seat, selectedSeat st = Some seat →
     0 ≤ id seat < 80 ∧ newSeat (id seat) = {| id := id seat; row := row seat;
                                              number := number seat;
                                              status := available;
                                              selectedBy := None |}) ∧
  Forall (λ u, seatBooked u = true) (bookedUsers st) ∧
  refreshing st = false ∧
  (loading st = true → st = initialState).
Proof.
  intros (Hmodal & Hlayout & Hsel & Hconf & Hrefr & Hload)%reachable_inv.
  split_and!; try done.
  - destruct Hlayout as [Hnil|Hlay]; [by left|right]. split; [done|].
    apply (f_equal length) in Hlay. unfold layout in Hlay.
    rewrite !length_fmap in Hlay. rewrite Hlay, generateAllSeats_seqZ.
    by rewrite length_fmap, length_seqZ.
  - intros seat Hs. destruct (Hsel seat Hs) as [_ Hin].
    unfold layout in Hin. rewrite generateAllSeats_seqZ in Hin.
    rewrite <-list_fmap_compose in Hin.
    apply list_elem_of_fmap in Hin as (i & Heq & Hi%elem_of_seqZ).
    simpl in Heq. injection Heq as Hid Hrow Hnum.
    split; [lia|]. rewrite Hid. unfold newSeat. by rewrite Hrow, Hnum.
Qed.

Lemma reconciled_step (st st' : State) :
  wellFormed st → reconciled st →
  step (λ reply, ¬ nullConfirmation reply) st st' → reconciled st'.
Proof.
  intros Hwf Hrec Hstep. destruct Hstep
    as [showRefresh reply st|seat st Hin Henabled|fieldName value st Hshown
       |st Hshown|reply dateNow isoNow st Hshown Henabled Hservice].
  - right. destruct (fetchData_run showRefresh reply) as [Hfell|[l Hfetched]].
    + rewrite Hfell. simpl. by rewrite markBookedSeats_nil.
    + by rewrite Hfetched.
  - unfold handleSeatClick. by destruct (bool_decide _), (selectedBy seat);
      try case_bool_decide.
  - done.
  - unfold handleCloseModal. by destruct (loading st).
  - destruct (modalShown_selected st Hshown) as (Hopen & seat & Hseat).
    destruct (decide (filled (formData st))) as [Hfilled|Hnf].
    2:{ apply not_filled in Hnf. unfold handleConfirmBooking.
        by rewrite Hnf. }
    destruct Hwf as (_ & _ & Hsel & _).
    destruct (Hsel seat Hseat) as [Hne _].
    destruct (handleConfirmBooking_cases st seat reply dateNow isoNow
                Hfilled Hseat) as [[_ ->]|[[Hnull _]|[ident ->]]];
      [done|done|].
    destruct Hrec as [[Hnil _]|Hrec]; [done|]. right.
    unfold accepted. simpl. rewrite Hrec at 1.
    rewrite markBookedSeats_snoc.
    apply (bookLocally_markUser _ seat
             (newBookedUser (formData st) seat ident dateNow isoNow)); [|done..].
    rewrite markBookedSeats_ids. apply generateAllSeats_NoDup.
Qed.

Lemma reachable_any service (st : State) :
  reachable service st → reachable (λ _, True) st.
Proof.
  induction 1 as [|st st' _ IH Hstep]; [constructor|].
  econstructor; [exact IH|]. destruct Hstep; by constructor.
Qed.

Lemma reachable_rec (st : State) :
  reachable (λ reply, ¬ nullConfirmation reply) st → reconciled st.
Proof.
  induction 1 as [|st st' Hreach IH Hstep]; [by left|].
  eapply reconciled_step; [|exact IH|exact Hstep].
  by eapply reachable_inv.
Qed.

(** X15.  As long as no confirmation is answered 2xx with the body [null],
    every state that the handlers reach, one handler at a time, has its
    seats reconciled with its booking list: there are no seats and no
    bookings yet, or the seats are what [markBookedSeats] makes of the
    generated seats and the booking list.  A seat then shows as booked
    exactly when the booking list has a record for it, and the booked
    count is at most the number of bookings. *)
Theorem reachable_reconciled (st : State) :
  reachable (λ reply, ¬ nullConfirmation reply) st →
  reconciled st ∧
  (∀ n s, seats st !! n = Some s →
     (status s = booked ↔ ∃ u, u ∈ bookedUsers st ∧ seatId u = Some (id s))) ∧
  (length (bookedSeats (seats st)) ≤ length (bookedUsers st))%nat.
Proof.
  intros Hreach. pose proof (reachable_rec st Hreach) as Hrec.
  pose proof (reachable_inv _ st Hreach) as (_ & _ & _ & Hconf & _).
  split; [done|].
  destruct Hrec as [[Hnil Hnone]|Hrec].
  { rewrite Hnil. split; [by intros n s|simpl; lia]. }
  split.
  - intros n s Hn. rewrite Hrec in Hn.
    destruct (markBookedSeats_generated _ n s Hn) as [-> _].
    split; intros (u & Hu & Hk); exists u; (split; [done|]).
    + unfold confirmedFor in Hk. apply andb_true_iff in Hk as [_ Hk].
      by apply bool_decide_eq_true in Hk.
    + rewrite Forall_forall in Hconf. unfold confirmedFor.
      rewrite (Hconf u Hu), Hk. by rewrite bool_decide_eq_true_2.
  - rewrite Hrec at 1.
    pose proof (markBookedSeats_booked_bound generateAllSeats (bookedUsers st))
      as Hbound.
    rewrite bookedSeats_generateAllSeats in Hbound. simpl in Hbound.
    assert (List.filter (λ user, seatBooked user) (bookedUsers st)
            = bookedUsers st) as Hall.
    { clear -Hconf. induction Hconf as [|u l Hu _ IH]; [done|]. simpl.
      by rewrite Hu, IH. }
    by rewrite Hall in Hbound.
Qed.

(** ** The seat grid *)

Lemma rowSeats_app (r : string) (l k : list Seat) :
  rowSeats r (l ++ k) = rowSeats r l ++ rowSeats r k.
Proof. apply List.filter_app. Qed.

Lemma rowSeats_all (r : string) (l : list Seat) :
  Forall (λ s, row s = r) l → rowSeats r l = l.
Proof.
  unfold rowSeats. induction 1 as [|s l Hs _ IH]; [done|]. simpl.
  by rewrite bool_decide_eq_true_2, IH.
Qed.

Lemma rowSeats_none (r r' : string) (l : list Seat) :
  r ≠ r' → Forall (λ s, row s = r') l → rowSeats r l = [].
Proof.
  unfold rowSeats. intros Hne. induction 1 as [|s l Hs _ IH]; [done|]. simpl.
  by rewrite bool_decide_eq_false_2, IH by congruence.
Qed.

(** Seats that come row after row, each block under its own letter: the
    filter of a letter picks its block. *)
Lemma rowSeats_blocks (letters : list string) (blocks : list (list Seat)) :
  NoDup letters →
  Forall2 (λ r block, Forall (λ s, row s = r) block) letters blocks →
  (∀ r, r ∉ letters → rowSeats r (concat blocks) = []) ∧
  (λ r, rowSeats r (concat blocks)) <$> letters = blocks.
Proof.
  intros Hnd Hall. induction Hall as [|r block letters blocks Hblock _ IH].
  { by split. }
  apply NoDup_cons in Hnd as [Hr Hnd]. destruct (IH Hnd) as [IHout IHin].
  split.
  - intros r' Hr'. apply not_elem_of_cons in Hr' as [Hne Hr'].
    simpl. rewrite rowSeats_app, (rowSeats_none r' r), IHout; done.
  - simpl. rewrite rowSeats_app, rowSeats_all, IHout, app_nil_r by done.
    f_equal. etransitivity; [|exact IHin]. apply list_fmap_ext.
    intros i r' Hi. simpl. rewrite rowSeats_app, (rowSeats_none r' r); [done| |done].
    intros ->. apply Hr. by eapply list_elem_of_lookup_2.
Qed.

(** A list of [n * k] elements is its [n] slices of [k] elements. *)
Lemma concat_slices {A} (k n : nat) (l : list A) :
  length l = (n * k)%nat →
  concat ((λ q, take k (drop (q * k) l)) <$> seq 0 n) = l.
Proof.
  revert l. induction n as [|n IH]; intros l Hlen.
  { simpl. symmetry. by apply nil_length_inv. }
  etransitivity; [|apply (take_drop k l)].
  change (seq 0 (S n)) with (0%nat :: seq 1 n). rewrite fmap_cons.
  change (concat (?x :: ?xs)) with (x ++ concat xs).
  change (0 * k)%nat with 0%nat. rewrite drop_0. f_equal.
  etransitivity; [|apply (IH (drop k l)); rewrite length_drop; lia].
  f_equal. rewrite <-fmap_S_seq, <-list_fmap_compose.
  apply list_fmap_ext. intros i q _. simpl. rewrite drop_drop.
  do 2 f_equal; lia.
Qed.

Lemma layout_rows (l : list Seat) :
  row <$> l = (λ t, t.1.2) <$> layout l.
Proof. unfold layout. by rewrite <-list_fmap_compose. Qed.

Lemma layout_numbers (l : list Seat) :
  number <$> l = (λ t, t.2) <$> layout l.
Proof. unfold layout. by rewrite <-list_fmap_compose. Qed.

Lemma fmap_replicate_Forall {A B} (f : A → B) (l : list A) (n : nat) (y : B) :
  f <$> l = replicate n y → Forall (λ x, f x = y) l.
Proof.
  revert n. induction l as [|x l IH]; intros n Heq; [done|].
  destruct n as [|n]; [done|]. simpl in Heq. injection Heq as Hx Hl.
  constructor; [done|]. by eapply IH.
Qed.

Lemma omap_total {A B} (f : A → option B) (g : A → B) (l : list A) :
  Forall (λ x, f x = Some (g x)) l → omap f l = g <$> l.
Proof.
  induction 1 as [|x l Hx _ IH]; [done|]. simpl. rewrite Hx. simpl.
  f_equal. exact IH.
Qed.

Lemma Forall2_same {A} (Q : A → A → Prop) (l : list A) :
  Forall2 Q l l → Forall (λ x, Q x x) l.
Proof.
  induction l as [|x l IH]; [done|]. intros [Hx Hl]%Forall2_cons.
  constructor; auto.
Qed.

(** X16.  The grid shows every seat once.  For seats with the addresses of
    the generated seats (the seats after any fetch, and after any
    optimistic update of them), the grid has the eight rows A to H in
    order, each with ten seats numbered 1 to 10 under the letter of the
    row, and the rows put end to end are the seats in their order. *)
Theorem seatGrid_rows (l : list Seat) :
  layout l = layout generateAllSeats →
  fst <$> seatGrid l = rows ∧
  concat (snd <$> seatGrid l) = l ∧
  Forall (λ g, length g.2 = 10%nat ∧ number <$> g.2 = seqZ 1 10 ∧
               Forall (λ s, row s = g.1) g.2) (seatGrid l).
Proof.
  intros Hlayout.
  set (blocks := (λ q, take 10 (drop (q * 10) l)) <$> seq 0 8).
  assert (length l = 80%nat) as Hlen.
  { apply (f_equal length) in Hlayout. unfold layout in Hlayout.
    rewrite !length_fmap in Hlayout. rewrite Hlayout, generateAllSeats_seqZ.
    by rewrite length_fmap, length_seqZ. }
  assert (concat blocks = l) as Hconcat by (by apply (concat_slices 10 8)).
  assert (Forall2 (λ r block, row <$> block = replicate 10 r ∧
                              number <$> block = seqZ 1 10) rows blocks) as Hblocks.
  { subst blocks. unfold rows. simpl.
    repeat constructor;
      rewrite ?fmap_take, ?fmap_drop, ?layout_rows, ?layout_numbers, Hlayout;
      by vm_compute. }
  assert (Forall2 (λ r block, Forall (λ s, row s = r) block) rows blocks) as Hrows.
  { eapply Forall2_impl; [exact Hblocks|]. intros r block [Hr _].
    by eapply fmap_replicate_Forall. }
  destruct (rowSeats_blocks rows blocks) as [_ Hpick];
    [by apply (bool_decide_unpack _)|done|].
  rewrite Hconcat in Hpick.
  rewrite <-Hpick in Hblocks.
  apply Forall2_fmap_r, Forall2_same in Hblocks. simpl in Hblocks.
  assert (Forall (λ r, length (rowSeats r l) = 10%nat) rows) as Hten.
  { eapply Forall_impl; [exact Hblocks|]. intros r [Hr _]. simpl in Hr.
    apply (f_equal length) in Hr. rewrite length_fmap in Hr. exact Hr. }
  assert (seatGrid l = (λ r, (r, rowSeats r l)) <$> rows) as Hgrid.
  { unfold seatGrid. apply omap_total.
    eapply Forall_impl; [exact Hten|]. intros r Hr. simpl.
    by rewrite Hr. }
  rewrite Hgrid. split_and!.
  - by rewrite <-list_fmap_compose.
  - rewrite <-list_fmap_compose. etransitivity; [|exact Hconcat].
    f_equal. etransitivity; [|exact Hpick]. done.
  - apply Forall_fmap. eapply Forall_impl; [exact Hblocks|].
    intros r [Hr Hn]. simpl in *. split_and!; [|done|].
    + apply (f_equal length) in Hr.
      rewrite length_fmap in Hr. exact Hr.
    + apply (fmap_replicate_Forall row _ 10 r). exact Hr.
Qed.

(** ** Sharing between the input array and the result *)

Lemma winner_cons (l : list Seat) (n : nat) (user : BookedUser) users :
  winner l n (user :: users) =
  match winner l n users with
  | Some w => Some w
  | None => if hits l n user then Some user else None
  end.
Proof.
  unfold winner. simpl. destruct (hits l n user); [|by destruct (last _)].
  destruct (List.filter (hits l n) users) as [|w ws] eqn:Hf; [done|].
  rewrite last_cons. by destruct (last (w :: ws)).
Qed.

(** One call of the callback, with the references of the array: a
    position that the record does not hit keeps its reference, the
    position it hits gets a reference that the store did not have. *)
Lemma heap_markUser_refs (σ : Heap.store) (a : Heap.loc) (elems : list Heap.loc)
    (seats : list Seat) (user : BookedUser) :
  σ !! a = Some (Heap.Arr elems) → Heap.seatsOf σ a = Some seats →
  ∃ σ' elems',
    Heap.markUser a σ user = Some σ' ∧
    σ' !! a = Some (Heap.Arr elems') ∧
    Heap.seatsOf σ' a = Some (markUser seats user) ∧
    (∀ l, is_Some (σ !! l) → is_Some (σ' !! l)) ∧
    ∀ n, if hits seats n user
         then ∃ o, elems' !! n = Some o ∧ σ !! o = None
         else elems' !! n = elems !! n.
Proof.
  intros Ha Hden.
  destruct (heap_markUser_step σ a seats user Hden) as (σ' & Hrun & Hden' & _).
  exists σ'. revert Hrun. unfold Heap.markUser, hits.
  destruct (seatBooked user), (seatId user) as [k|];
    try (intros [= <-]; exists elems; by split_and!).
  rewrite Hden. simpl.
  destruct (findIndex_range (λ seat, bool_decide (id seat = k)) seats)
    as [Hnone|(m & x & Hm & Hx & _)].
  { rewrite Hnone, bool_decide_eq_false_2 by lia. intros [= <-].
    exists elems. split_and!; try done. intros n.
    by rewrite bool_decide_eq_false_2 by lia. }
  rewrite Hm, Nat2Z.id, Hx, bool_decide_eq_true_2 by lia. simpl.
  set (o := fresh (dom σ)).
  assert (σ !! o = None) as Ho by apply heap_fresh_None.
  assert (o ≠ a) as Hoa by congruence.
  unfold Heap.readArr. rewrite lookup_insert_ne, Ha by done. simpl.
  intros [= <-]. exists (<[m := o]> elems).
  split_and!; try done.
  - apply lookup_insert_eq.
  - intros l [c Hc]. destruct (decide (l = a)) as [->|Hla].
    + rewrite lookup_insert_eq. by eexists.
    + rewrite !lookup_insert_ne; [by eexists|congruence..].
  - intros n. destruct (decide (m = n)) as [->|Hne].
    + rewrite bool_decide_eq_true_2 by done. exists o. split; [|done].
      apply list_lookup_insert_eq.
      apply heap_seatsOf_Some in Hden as (elems0 & Ha0 & Hall).
      assert (elems0 = elems) as -> by congruence.
      rewrite (Forall2_length _ _ _ Hall). by eapply lookup_lt_Some.
    + rewrite bool_decide_eq_false_2 by lia.
      by apply list_lookup_insert_ne.
Qed.

Lemma heap_forEach_refs (σ0 : Heap.store) (users : list BookedUser)
    (σ : Heap.store) (a : Heap.loc) (elems : list Heap.loc) (seats : list Seat) :
  (∀ l, is_Some (σ0 !! l) → is_Some (σ !! l)) →
  σ !! a = Some (Heap.Arr elems) → Heap.seatsOf σ a = Some seats →
  ∃ σ' elems',
    Heap.forEach (Heap.markUser a) users σ = Some σ' ∧
    σ' !! a = Some (Heap.Arr elems') ∧
    ∀ n, match winner seats n users with
         | Some _ => ∃ o, elems' !! n = Some o ∧ σ0 !! o = None
         | None => elems' !! n = elems !! n
         end.
Proof.
  revert σ elems seats.
  induction users as [|user users IH]; intros σ elems seats Hgrow Ha Hden.
  { exists σ, elems. by split_and!. }
  destruct (heap_markUser_refs σ a elems seats user Ha Hden)
    as (σ1 & elems1 & Hstep & Ha1 & Hden1 & Hgrow1 & Hrefs1).
  destruct (IH σ1 elems1 (markUser seats user)) as (σ' & elems' & Hrest & Ha' & Hrefs);
    [by auto|done|done|].
  exists σ', elems'. simpl. rewrite Hstep. simpl. split_and!; [done..|].
  intros n. specialize (Hrefs n). specialize (Hrefs1 n).
  rewrite (winner_ids _ seats) in Hrefs by apply markUser_ids.
  rewrite winner_cons. destruct (winner seats n users) as [w|]; [done|].
  destruct (hits seats n user); [|congruence].
  destruct Hrefs1 as (o & Ho & Hfresh). exists o. split; [congruence|].
  destruct (σ0 !! o) as [c|] eqn:Hc; [|done].
  destruct (Hgrow o) as [c' Hc']; [by eexists|congruence].
Qed.

(** X17.  The result of [markBookedSeats] is a shallow copy: at a
    position that no record hits, the new array holds the very seat
    object of the input array; at a position that a record hits, it holds
    an object that did not exist before the call. *)
Theorem markBookedSeats_shares (σ : Heap.store) (allSeats : Heap.loc)
    (elems : list Heap.loc) (seats : list Seat) (users : list BookedUser) :
  σ !! allSeats = Some (Heap.Arr elems) →
  Heap.seatsOf σ allSeats = Some seats →
  ∃ σ' updatedSeats elems',
    Heap.markBookedSeats σ allSeats users = Some (σ', updatedSeats) ∧
    σ' !! updatedSeats = Some (Heap.Arr elems') ∧
    ∀ n, match winner seats n users with
         | Some _ => ∃ o, elems' !! n = Some o ∧ σ !! o = None
         | None => elems' !! n = elems !! n
         end.
Proof.
  intros Ha Hden.
  pose proof Hden as (elems0 & Ha0 & Hall)%heap_seatsOf_Some.
  assert (elems0 = elems) as -> by congruence.
  set (u := fresh (dom σ)).
  assert (σ !! u = None) as Hu by apply heap_fresh_None.
  assert (Heap.seatsOf (<[u := Heap.Arr elems]> σ) u = Some seats) as Hden0.
  { apply heap_seatsOf_Some. exists elems. split; [apply lookup_insert_eq|].
    eapply Forall2_impl; [exact Hall|]. intros l s Hl. simpl in *.
    rewrite lookup_insert_ne; [done|congruence]. }
  destruct (heap_forEach_refs σ users (<[u := Heap.Arr elems]> σ) u elems seats)
    as (σ' & elems' & Hrun & Ha' & Hrefs); [|apply lookup_insert_eq|done|].
  { intros l [c Hc]. rewrite lookup_insert_ne by congruence. by eexists. }
  exists σ', u, elems'. split_and!; [|done..].
  unfold Heap.markBookedSeats, Heap.readArr. rewrite Ha. simpl.
  fold u. by rewrite Hrun.
Qed.

(** ** The further properties on the scenarios *)

#[local] Transparent generateAllSeats markBookedSeats pretty usersDataOf.

Lemma markBookedSeats_order_witness :
  markBookedSeats twoSeats
    [record "Alice" true (Some 5); record "Dave" true (Some 4)]
  = markBookedSeats twoSeats
      [record "Dave" true (Some 4); record "Alice" true (Some 5)].
Proof.
  apply markBookedSeats_order.
  - apply Permutation_swap.
  - intros u1 u2 k Hu1 Hu2
      [_ Hk1%bool_decide_eq_true]%andb_true_iff
      [_ Hk2%bool_decide_eq_true]%andb_true_iff.
    apply list_elem_of_In in Hu1, Hu2. simpl in Hu1, Hu2.
    destruct Hu1 as [<-|[<-|[]]], Hu2 as [<-|[<-|[]]];
      simpl in *; congruence.
Defined.

Lemma markBookedSeats_never_frees_witness :
  (∃ s', markBookedSeats [book (newSeat 4) "Zoe"; newSeat 5] fourRecords
           !! 0%nat = Some s' ∧ status s' = booked) ∧
  (length (bookedSeats (markBookedSeats [book (newSeat 4) "Zoe"; newSeat 5]
                          fourRecords)) ≤ 1 + 3)%nat.
Proof.
  destruct (markBookedSeats_never_frees [book (newSeat 4) "Zoe"; newSeat 5]
              fourRecords) as (Hpoint & _ & Hbound).
  split; [|exact Hbound].
  destruct (Hpoint 0%nat (book (newSeat 4) "Zoe") eq_refl)
    as (s' & Hs' & Hkeep & _).
  exists s'. split; [exact Hs'|]. apply Hkeep. reflexivity.
Defined.


Lemma fetchData_consistent_witness :
  seats loadedState !! 5%nat = Some (book (newSeat 5) "Bob") ∧
  ∃ u, u ∈ bookedUsers loadedState ∧ seatId u = Some 5.
Proof.
  assert (seats loadedState !! 5%nat = Some (book (newSeat 5) "Bob")) as Hseat
    by (by vm_compute).
  split; [exact Hseat|].
  destruct (fetchData_consistent false
              (replyWith (JArr (Some <$> fourRecords))) initialState)
    as (_ & _ & _ & _ & Hbooked & _).
  destruct (Hbooked 5%nat (book (newSeat 5) "Bob") Hseat) as [Hiff _].
  apply Hiff. reflexivity.
Defined.

Lemma fetchData_accepts_witness :
  bookedUsers
    (run (fetchData true
            (replyWith (JObj [("users", JArr [Some (record "Dave" true (Some 4))]);
                              ("data", JArr [Some (record "Alice" true (Some 5))])])))
         initialState)
  = [record "Alice" true (Some 5)] ∧
  banner
    (run (fetchData true
            (replyWith (JArr [Some (record "Alice" true (Some 5)); None])))
         initialState)
  = Some "Failed to load seat data. Using demo data instead.".
Proof.
  split.
  - destruct (fetchData_accepts true
                (mkResponse true 200 (Ok "")
                   (Ok (JObj [("users", JArr [Some (record "Dave" true (Some 4))]);
                              ("data", JArr [Some (record "Alice" true (Some 5))])])))
                (JObj [("users", JArr [Some (record "Dave" true (Some 4))]);
                       ("data", JArr [Some (record "Alice" true (Some 5))])])
                initialState eq_refl eq_refl) as [Hrecords _]; [discriminate|].
    destruct (Hrecords [record "Alice" true (Some 5)] eq_refl)
      as (_ & _ & _ & Hlist & _).
    exact Hlist.
  - destruct (fetchData_accepts true
                (mkResponse true 200 (Ok "")
                   (Ok (JArr [Some (record "Alice" true (Some 5)); None])))
                (JArr [Some (record "Alice" true (Some 5)); None])
                initialState eq_refl eq_refl) as [_ Hnull]; [discriminate|].
    destruct (Hnull eq_refl) as (_ & _ & Hbanner & _).
    exact Hbanner.
Defined.

Lemma handleConfirmBooking_checks_witness :
  ¬ filled (formData loadedState) ∧
  handleConfirmBooking loadedState (replyWith (ConfirmData None)) 0 ""
  = ([Alert "Please fill all fields"], Ok tt) ∧
  requests (trace (handleConfirmBooking aliceState
                     (Raise (mkExn "Failed to fetch")) 0 ""))
  = [HttpPost "http://localhost:3000/confirm-booking"
       (bookingDataOf aliceForm (newSeat 5))].
Proof.
  assert (¬ filled (formData loadedState)) as Hnf by (by intros [Hn _]).
  assert (filled (formData aliceState)) as Hf by (by split_and!).
  destruct (handleConfirmBooking_checks loadedState
              (replyWith (ConfirmData None)) 0 "") as (_ & Hmissing & _).
  destruct (handleConfirmBooking_checks aliceState
              (Raise (mkExn "Failed to fetch")) 0 "") as (_ & _ & _ & Hsent).
  destruct (Hsent (newSeat 5) Hf eq_refl) as [Hreq _].
  split_and!; [exact Hnf|exact (Hmissing Hnf)|exact Hreq].
Defined.

Lemma handleConfirmBooking_fails_witness :
  filled aliceForm ∧
  run (handleConfirmBooking aliceState (Raise (mkExn "Failed to fetch")) 0 "")
      aliceState = aliceState ∧
  alerts (trace (handleConfirmBooking aliceState
                   (Raise (mkExn "Failed to fetch")) 0 ""))
  = ["Failed to confirm booking: Failed to fetch"].
Proof.
  assert (filled aliceForm) as Hf by (by split_and!).
  split; [exact Hf|].
  destruct (handleConfirmBooking_fails aliceState (newSeat 5)
              (Raise (mkExn "Failed to fetch")) 0 "" Hf eq_refl I)
    as (Hrun & Halert & _).
  split; [exact Hrun|exact Halert].
Defined.

Lemma handleConfirmBooking_null_witness :
  filled (formData typedState) ∧
  nullConfirmation (replyWith ConfirmNull) ∧
  (∃ s, seats brokenState !! 7%nat = Some s ∧ status s = booked) ∧
  bookedUsers brokenState = bookedUsers typedState ∧
  showModal brokenState = true.
Proof.
  assert (filled (formData typedState)) as Hf by (by split_and!).
  assert (nullConfirmation (replyWith ConfirmNull)) as Hnull
    by (eexists; by split_and!).
  destruct (handleConfirmBooking_null typedState (newSeat 7)
              (replyWith ConfirmNull) 0 "" Hf eq_refl Hnull)
    as (Hseats & Hlist & Hmodal & _).
  split_and!; [exact Hf|exact Hnull| |exact Hlist|exact Hmodal].
  exists (book (newSeat 7) "Eve"). split; [|reflexivity].
  unfold brokenState. rewrite Hseats. by vm_compute.
Defined.

Lemma handleConfirmBooking_once_witness :
  filled aliceForm ∧
  requests
    (trace (handleConfirmBooking
              (run (handleConfirmBooking aliceState
                      (replyWith (ConfirmData (Some "65f0c1"))) 0 "") aliceState)
              (replyWith (ConfirmData (Some "65f0c2"))) 1 "")) = [].
Proof.
  assert (filled aliceForm) as Hf by (by split_and!).
  split; [exact Hf|].
  destruct (handleConfirmBooking_once aliceState (newSeat 5)
              (mkResponse true 200 (Ok "") (Ok (ConfirmData (Some "65f0c1"))))
              (Some "65f0c1") 0 "" (replyWith (ConfirmData (Some "65f0c2"))) 1 ""
              Hf eq_refl eq_refl eq_refl) as (_ & Hnone & _).
  exact Hnone.
Defined.

Lemma handleSeatClick_cancel_witness :
  status (newSeat 7) = available ∧
  selectedSeat (run (handleSeatClick (newSeat 7)) loadedState) = Some (newSeat 7) ∧
  run (handleCloseModal (run (handleSeatClick (newSeat 7)) loadedState))
      (run (handleSeatClick (newSeat 7)) loadedState) = loadedState.
Proof.
  destruct (handleSeatClick_cancel loadedState (newSeat 7)) as [_ Havailable].
  destruct (Havailable eq_refl) as (_ & Hclicked & _ & _ & Hround & _).
  split_and!; [reflexivity|by rewrite Hclicked|].
  apply Hround; reflexivity.
Defined.

Lemma handleInputChange_request_witness :
  requests (trace (handleConfirmBooking typedState
                     (replyWith (ConfirmData None)) 0 ""))
  = [HttpPost "http://localhost:3000/confirm-booking"
       {| b_name := "Eve"; b_email := "e@x.com"; b_phone := "555";
          b_payment := "card"; b_seatBooked := true; b_seatId := 7 |}] ∧
  formData (handleInputChange "coupon" "X1" typedState)
  = {| name := "Eve"; email := "e@x.com"; phone := "555"; payment := "card";
       others := {[ "coupon" := "X1" ]} |} ∧
  handleInputChange "email" "e@x.com"
    (handleInputChange "name" "Eve"
       (run (handleSeatClick (newSeat 7)) loadedState))
  = handleInputChange "name" "Eve"
      (handleInputChange "email" "e@x.com"
         (run (handleSeatClick (newSeat 7)) loadedState)).
Proof.
  destruct (handleInputChange_request
              (run (handleSeatClick (newSeat 7)) loadedState) (newSeat 7)
              "Eve" "e@x.com" "555" (replyWith (ConfirmData None)) 0 ""
              eq_refl) as (_ & _ & Hcomm & _ & _ & _ & _ & _ & Hreq & Hother);
    [done..|].
  split_and!.
  - exact Hreq.
  - destruct (Hother "coupon" "X1") as [Hstored _]; [done..|].
    exact Hstored.
  - by apply Hcomm.
Defined.

Lemma loadedState_reachable service : reachable service loadedState.
Proof.
  unfold loadedState. eapply reachable_step; [apply reachable_initial|].
  apply step_fetch.
Qed.

Lemma reachable_wellFormed_witness :
  reachable (λ _, True) loadedState ∧
  refreshing loadedState = false ∧
  Forall (λ u, seatBooked u = true) (bookedUsers loadedState).
Proof.
  pose proof (loadedState_reachable (λ _, True)) as Hreach.
  split; [exact Hreach|].
  destruct (reachable_wellFormed (λ _, True) loadedState Hreach)
    as (_ & _ & _ & Hconf & Hrefr & _).
  split; [exact Hrefr|exact Hconf].
Defined.

Lemma reachable_reconciled_witness :
  reachable (λ reply, ¬ nullConfirmation reply) loadedState ∧
  reconciled loadedState.
Proof.
  pose proof (loadedState_reachable (λ reply, ¬ nullConfirmation reply)) as Hreach.
  split; [exact Hreach|].
  by destruct (reachable_reconciled loadedState Hreach) as (Hrec & _).
Defined.

Lemma seatGrid_rows_witness :
  layout (seats loadedState) = layout generateAllSeats ∧
  fst <$> seatGrid (seats loadedState) = rows ∧
  concat (snd <$> seatGrid (seats loadedState)) = seats loadedState.
Proof.
  assert (layout (seats loadedState) = layout generateAllSeats) as Hlayout
    by (by vm_compute).
  split; [exact Hlayout|].
  destruct (seatGrid_rows (seats loadedState) Hlayout) as (Hletters & Hall & _).
  split; [exact Hletters|exact Hall].
Defined.

Lemma markBookedSeats_shares_witness :
  twoSeatStore !! 3%positive = Some (Heap.Arr [1%positive; 2%positive]) ∧
  winner twoSeats 0 fourRecords = None ∧
  ∃ σ' updatedSeats elems',
    Heap.markBookedSeats twoSeatStore 3%positive fourRecords
    = Some (σ', updatedSeats) ∧
    σ' !! updatedSeats = Some (Heap.Arr elems') ∧
    elems' !! 0%nat = Some 1%positive.
Proof.
  assert (twoSeatStore !! 3%positive = Some (Heap.Arr [1%positive; 2%positive]))
    as Harr by (by vm_compute).
  assert (Heap.seatsOf twoSeatStore 3%positive = Some twoSeats) as Hden
    by (by vm_compute).
  assert (winner twoSeats 0 fourRecords = None) as Hnone by (by vm_compute).
  split; [exact Harr|]. split; [exact Hnone|].
  destruct (markBookedSeats_shares twoSeatStore 3%positive
              [1%positive; 2%positive] twoSeats fourRecords Harr Hden)
    as (σ' & updatedSeats & elems' & Hrun & Hnew & Hrefs).
  exists σ', updatedSeats, elems'. split_and!; [exact Hrun|exact Hnew|].
  specialize (Hrefs 0%nat). rewrite Hnone in Hrefs. exact Hrefs.
Defined.

(** Without the proviso of X15: after a confirmation answered 200 with
    the body [null], seat 7 shows as booked and the booking list has no
    record for it. *)
Lemma null_confirmation_unreconciled :
  reachable (λ _, True) brokenState ∧ ¬ reconciled brokenState.
Proof.
  split.
  - unfold brokenState, typedState.
    eapply reachable_step; [|apply step_confirm; by vm_compute].
    eapply reachable_step; [|apply step_input; by vm_compute].
    eapply reachable_step; [|apply step_input; by vm_compute].
    eapply reachable_step; [|apply step_input; by vm_compute].
    eapply reachable_step; [apply loadedState_reachable|].
    apply step_click; [|by vm_compute].
    apply (list_elem_of_lookup_2 _ 7). by vm_compute.
  - intros [[Hnil _]|Hrec].
    + by vm_compute in Hnil.
    + apply (f_equal (λ l, status <$> l !! 7%nat)) in Hrec.
      by vm_compute in Hrec.
Qed.
